(** * display_ginga: the ginga backend of afw.display

    A shallow embedding of [lsst/display/ginga/ginga.py]: the mask
    compositor inside [DisplayImpl._mtv], the symbol drawing of
    [DisplayImpl._dot] and the mask-transparency accessors.

    numpy arrays are lists of rows, [uint8] cells are integers with the
    wrap-around written out, Python floats are binary64 primitive floats,
    and code that can raise returns a [Result]. *)

From Stdlib Require Import ZArith List String Ascii Bool Lia.
From Stdlib Require Import PrimFloat FloatOps SpecFloat.
Import ListNotations.

Set Warnings "-inexact-float,-notation-for-abbreviation".

Open Scope string_scope.
Open Scope Z_scope.

(** ** Python exceptions and fallible computations *)

Inductive PyExc : Type :=
| TypeError (msg : string)
| ValueError (msg : string)
| IndexError (msg : string)
| RuntimeError (msg : string).

Inductive Result (T : Type) : Type :=
| Ok (v : T)
| Raise (e : PyExc).

Arguments Ok {T} v.
Arguments Raise {T} e.

Definition bind {T U : Type} (m : Result T) (k : T -> Result U) : Result U :=
  match m with
  | Ok v => k v
  | Raise e => Raise e
  end.

Notation "x <- m ;; k" := (bind m (fun x => k))
  (at level 61, m at next level, right associativity).

(** ** Floats and the cast to [uint8] *)

(** Truncation toward zero of a finite binary64 value, as the C cast that
    numpy applies when a float is stored into an integer array. *)
Definition trunc_float (f : float) : Z :=
  match Prim2SF f with
  | S754_finite s m e =>
      let mag := Z.shiftl (Z.pos m) e in
      if s then - mag else mag
  | _ => 0
  end.

(** Storing a float into a [uint8] cell: truncate, keep the low byte. *)
Definition uint8_of_float (f : float) : Z := trunc_float f mod 256.

(** ** Two-dimensional arrays *)

Definition grid (T : Type) : Type := list (list T).

Definition gmap {T U : Type} (f : T -> U) (g : grid T) : grid U :=
  map (map f) g.

Fixpoint zipWith {T U V : Type} (f : T -> U -> V) (l1 : list T) (l2 : list U)
  : list V :=
  match l1, l2 with
  | x :: l1', y :: l2' => f x y :: zipWith f l1' l2'
  | _, _ => []
  end.

Definition gzip {T U V : Type} (f : T -> U -> V) (g1 : grid T) (g2 : grid U)
  : grid V :=
  zipWith (zipWith f) g1 g2.

Definition gget {T : Type} (g : grid T) (i j : nat) : option T :=
  match nth_error g i with
  | Some row => nth_error row j
  | None => None
  end.

Definition gall {T : Type} (p : T -> bool) (g : grid T) : bool :=
  forallb (forallb p) g.

Definition shape {T : Type} (g : grid T) : list nat := map (@List.length T) g.

(** [np.zeros((h, w), ...)] with every cell [z]. *)
Definition np_full {T : Type} (h w : nat) (z : T) : grid T :=
  repeat (repeat z w) h.

(** ** Pixels of the RGBA image *)

(** [R, G, B, A = 0, 1, 2, 3]: names for the colours and the alpha plane. *)
Inductive Chan : Type := R | G | B | A.

Record Pixel : Type := mkPixel { pR : Z; pG : Z; pB : Z; pA : Z }.

Definition chan_get (C : Chan) (p : Pixel) : Z :=
  match C with
  | R => pR p
  | G => pG p
  | B => pB p
  | A => pA p
  end.

Definition chan_set (C : Chan) (v : Z) (p : Pixel) : Pixel :=
  match C with
  | R => mkPixel v (pG p) (pB p) (pA p)
  | G => mkPixel (pR p) v (pB p) (pA p)
  | B => mkPixel (pR p) (pG p) v (pA p)
  | A => mkPixel (pR p) (pG p) (pB p) v
  end.

Definition zero_pixel : Pixel := mkPixel 0 0 0 0.

(** [arr[:, :, C][isSet] = v] *)
Definition masked_assign (C : Chan) (v : Z) (isSet : grid bool)
  (arr : grid Pixel) : grid Pixel :=
  gzip (fun (b : bool) px => if b then chan_set C v px else px) isSet arr.

(** [nSet[isSet] += 1] on a [uint8] array. *)
Definition masked_incr (isSet : grid bool) (arr : grid Z) : grid Z :=
  gzip (fun (b : bool) n => if b then (n + 1) mod 256 else n) isSet arr.

(** numpy's [//] on [uint8]: floor division, and 0 (with a RuntimeWarning)
    where the divisor is 0. *)
Definition floor_divide (a b : Z) : Z :=
  if b =? 0 then 0 else a / b.

(** [arr[:, :, C] //= nSet] *)
Definition channel_floor_divide (C : Chan) (divisor : grid Z)
  (arr : grid Pixel) : grid Pixel :=
  gzip (fun n px => chan_set C (floor_divide (chan_get C px) n) px) divisor arr.

(** ** Strings *)

Definition lower_ascii (c : ascii) : ascii :=
  let n := nat_of_ascii c in
  if (Nat.leb 65 n && Nat.leb n 90)%bool then ascii_of_nat (n + 32) else c.

Fixpoint lower (s : string) : string :=
  match s with
  | EmptyString => EmptyString
  | String c s' => String (lower_ascii c) (lower s')
  end.

(** [s.split(sep)] for a one-character separator. *)
Fixpoint split_char (sep : ascii) (s : string) : list string :=
  match s with
  | EmptyString => [EmptyString]
  | String c rest =>
      if Ascii.eqb c sep then EmptyString :: split_char sep rest
      else
        match split_char sep rest with
        | w :: ws => String c w :: ws
        | [] => [String c EmptyString]
        end
  end.

(** The ASCII characters that [str.split()] treats as white space. *)
Definition is_space (c : ascii) : bool :=
  let n := nat_of_ascii c in
  ((Nat.leb 9 n && Nat.leb n 13) || (Nat.leb 28 n && Nat.leb n 32))%bool.

Definition starts_with_space (s : string) : bool :=
  match s with
  | EmptyString => true
  | String c _ => is_space c
  end.

(** [s.split()]: the maximal runs of characters that are not white space. *)
Fixpoint py_split (s : string) : list string :=
  match s with
  | EmptyString => []
  | String c rest =>
      if is_space c then py_split rest
      else if starts_with_space rest then String c EmptyString :: py_split rest
      else
        match py_split rest with
        | w :: ws => String c w :: ws
        | [] => [String c EmptyString]
        end
  end.

Fixpoint has_char (c : ascii) (s : string) : bool :=
  match s with
  | EmptyString => false
  | String d rest => (Ascii.eqb d c || has_char c rest)%bool
  end.

(** [fmt % args] for format strings whose only conversions are [%s] and
    [%%], applied to string arguments. *)
Fixpoint percent_format (fmt : string) (args : list string) : Result string :=
  match fmt with
  | EmptyString =>
      match args with
      | [] => Ok EmptyString
      | _ :: _ =>
          Raise (TypeError "not all arguments converted during string formatting")
      end
  | String c rest =>
      if Ascii.eqb c "%" then
        match rest with
        | EmptyString => Raise (ValueError "incomplete format")
        | String d rest' =>
            if Ascii.eqb d "s" then
              match args with
              | a :: args' => r <- percent_format rest' args' ;; Ok (a ++ r)
              | [] => Raise (TypeError "not enough arguments for format string")
              end
            else if Ascii.eqb d "%" then
              r <- percent_format rest' args ;; Ok (String "%" r)
            else Raise (ValueError "unsupported format character")
        end
      else r <- percent_format rest args ;; Ok (String c r)
  end.

(** ** The mask *)

(** An afw [Mask]: its pixel array has [getHeight] rows of [getWidth]
    cells, and [getMaskPlaneDict().items()] lists the planes in the
    dictionary's iteration order. *)
Record Mask : Type := mkMask {
  getHeight : nat;
  getWidth : nat;
  getArray : grid Z;
  getMaskPlaneDict : list (string * nat);
  array_shape : shape getArray = repeat getWidth getHeight
}.

(** ** The display object *)

Inductive Wcs : Type := WcsHandle (id : nat).

Inductive WcsAdaptorForGinga : Type := mkWcsAdaptor (_wcs : Wcs).

Record AstroImage : Type := mkAstroImage {
  data_np : grid float;
  ai_wcs : option WcsAdaptorForGinga
}.

Definition set_wcs (w : WcsAdaptorForGinga) (im : AstroImage) : AstroImage :=
  mkAstroImage (data_np im) (Some w).

Inductive Symbol : Type :=
| BaseCore (getA getB getTheta : float)
| SymbStr (s : string).

Inductive CanvasObject : Type :=
| Ellipse (x y xradius yradius rot_deg : float) (color : string)
| Circle (x y radius : float) (color : string)
| Line (x1 y1 x2 y2 : float) (color : string)
| Text (x y : float) (text : string) (color : string)
| Image (x y : Z) (rgb_img : grid Pixel).

Record DisplayImpl : Type := mkDisplayImpl {
  _viewer_image : option AstroImage;
  _canvas : list CanvasObject;
  _maskTransparency : float;
  _redraw : bool;
  stderr : list string
}.

Definition set_canvas (c : list CanvasObject) (self : DisplayImpl) : DisplayImpl :=
  mkDisplayImpl (_viewer_image self) c (_maskTransparency self) (_redraw self)
    (stderr self).

Definition set_viewer_image (im : AstroImage) (self : DisplayImpl) : DisplayImpl :=
  mkDisplayImpl (Some im) (_canvas self) (_maskTransparency self) (_redraw self)
    (stderr self).

Definition canvas_add (o : CanvasObject) (self : DisplayImpl) : DisplayImpl :=
  set_canvas (_canvas self ++ [o]) self.

Definition set_maskTransparency (t : float) (self : DisplayImpl) : DisplayImpl :=
  mkDisplayImpl (_viewer_image self) (_canvas self) t (_redraw self)
    (stderr self).

(** [print(msg, file=sys.stderr)] *)
Definition print_stderr (msg : string) (self : DisplayImpl) : DisplayImpl :=
  mkDisplayImpl (_viewer_image self) (_canvas self) (_maskTransparency self)
    (_redraw self) (stderr self ++ [msg])%list.

Definition _erase (self : DisplayImpl) : DisplayImpl := set_canvas [] self.

Definition _getMaskTransparency (self : DisplayImpl) : float :=
  _maskTransparency self.

(** What a method leaves behind: the display object as it is when the
    method returns or raises, and the exception if it raised. *)
Definition Outcome : Type := (DisplayImpl * option PyExc)%type.


(** ** Drawing lines *)

(** The loop of [_drawLines]: [p0] is the point reached so far. *)
Fixpoint drawLines_loop (self : DisplayImpl) (p0 : float * float)
  (points : list (float * float)) (ctype : string) : DisplayImpl :=
  match points with
  | [] => self
  | p :: rest =>
      drawLines_loop
        (canvas_add (Line (fst p0) (snd p0) (fst p) (snd p) ctype) self)
        p rest ctype
  end.

(** [_drawLines(self, points, ctype)]: [points[0]] raises on an empty list. *)
Definition _drawLines (self : DisplayImpl) (points : list (float * float))
  (ctype : string) : Outcome :=
  match points with
  | [] => (self, Some (IndexError "list index out of range"))
  | p0 :: rest => (drawLines_loop self p0 rest ctype, None)
  end.

(** ** Mask transparency *)

(** [_setMaskTransparency(self, transparency, maskplane)]: the message is
    built with [%] before it is printed. *)
Definition _setMaskTransparency (self : DisplayImpl) (transparency : float)
  (maskplane : option string) : Outcome :=
  match maskplane with
  | Some mp =>
      match percent_format
              "display_ginga is not yet able to set transparency for individual maskplanes"
              [mp] with
      | Ok msg => (print_stderr msg self, None)
      | Raise e => (self, Some e)
      end
  | None => (set_maskTransparency (0.01 * transparency) self, None)
  end.

(** ** Drawing symbols *)

(** [math.degrees] *)
Definition degrees (x : float) : float :=
  (x * (180 / 3.141592653589793))%float.

(** [tmp = ds9Cmd.split("#")] then [tmp.pop(0).split()]: the command word
    and its arguments. *)
Definition command_words (ds9Cmd : string) : list string :=
  py_split (hd EmptyString (split_char "#" ds9Cmd)).

Section Dot.

(** [ds9Regions.dot(symb, c, r, size, fontFamily="helvetica",
    textAngle=None)] and Python's [float(p)] ([None] where it raises). *)
Variable ds9Regions_dot : string -> float -> float -> float -> list string.
Variable py_float : string -> option float.

(** [[float(p) - 1 for p in args]] *)
Fixpoint floats_minus_1 (args : list string) : Result (list float) :=
  match args with
  | [] => Ok []
  | p :: rest =>
      match py_float p with
      | None => Raise (ValueError ("could not convert string to float: " ++ p))
      | Some f =>
          fs <- floats_minus_1 rest ;; Ok ((f - 1)%float :: fs)
      end
  end.

(** Lines 294-305: one region command. *)
Definition dot_command (self : DisplayImpl) (symb ctype : string)
  (ds9Cmd : string) : Outcome :=
  match command_words ds9Cmd with
  | [] => (self, Some (IndexError "list index out of range"))
  | cmd0 :: args =>
      if String.eqb cmd0 "line" then
        match floats_minus_1 args with
        | Raise e => (self, Some e)
        | Ok [x1; y1; x2; y2] =>
            (canvas_add (Line x1 y1 x2 y2 ctype) self, None)
        | Ok _ => (self, Some (TypeError "Line() takes x1, y1, x2, y2"))
        end
      else if String.eqb cmd0 "text" then
        match floats_minus_1 (firstn 2 args) with
        | Raise e => (self, Some e)
        | Ok [x; y] => (canvas_add (Text x y symb ctype) self, None)
        | Ok _ => (self, Some (ValueError "not enough values to unpack"))
        end
      else (self, Some (RuntimeError ds9Cmd))
  end.

(** The loop of line 293: it stops at the first command that raises. *)
Fixpoint dot_loop (self : DisplayImpl) (symb ctype : string)
  (cmds : list string) : Outcome :=
  match cmds with
  | [] => (self, None)
  | ds9Cmd :: rest =>
      match dot_command self symb ctype ds9Cmd with
      | (self', None) => dot_loop self' symb ctype rest
      | (self', Some e) => (self', Some e)
      end
  end.

Definition _dot (self : DisplayImpl) (symb : Symbol) (c r size : float)
  (ctype : string) : Outcome :=
  match symb with
  | BaseCore a b theta =>
      (canvas_add (Ellipse c r a b (degrees theta) ctype) self, None)
  | SymbStr s =>
      if String.eqb s "o" then (canvas_add (Circle c r size ctype) self, None)
      else dot_loop self s ctype (ds9Regions_dot s c r size)
  end.

End Dot.

(** ** The mask compositor of [_mtv] *)

(** The local arrays of the [if mask:] block and the position of the
    fallback colour generator (the number of colours drawn so far). *)
Record Locals : Type := mkLocals {
  maska : grid Z;
  maskRGB : grid Pixel;
  nSet : grid Z;
  colorGenerator : nat
}.

(** [v & (1 << maskPlaneNum) != 0] for one cell [v] of the mask. *)
Definition bit_set (v : Z) (maskPlaneNum : nat) : bool :=
  negb (Z.land v (Z.shiftl 1 (Z.of_nat maskPlaneNum)) =? 0).

(** [maska & (1 << maskPlaneNum) != 0] *)
Definition plane_isSet (arr : grid Z) (maskPlaneNum : nat) : grid bool :=
  gmap (fun v => bit_set v maskPlaneNum) arr.

(** Python's [not color] for a colour that is [None] or a string. *)
Definition py_not (color : option string) : bool :=
  match color with
  | None => true
  | Some s => String.eqb s ""
  end.

Definition color_text (color : option string) : string :=
  match color with
  | Some s => s
  | None => ""
  end.

(** The three bytes stored for a colour. *)
Definition rgb8 (c : float * float * float) : Z * Z * Z :=
  let '(r, g, b) := c in
  (uint8_of_float (255 * r), uint8_of_float (255 * g), uint8_of_float (255 * b)).

Definition with_rgb (c : Z * Z * Z) (px : Pixel) : Pixel :=
  let '(r, g, b) := c in mkPixel r g b (pA px).

(** No cell of the mask has the bit of the plane [item]. *)
Definition empty_plane (arr : grid Z) (item : string * nat) : Prop :=
  gall negb (plane_isSet arr (snd item)) = true.

Definition rgb_in_range (px : Pixel) : Prop :=
  (0 <= pR px < 256) /\ (0 <= pG px < 256) /\ (0 <= pB px < 256).

Definition well_shaped (st : Locals) : Prop :=
  shape (maskRGB st) = shape (maska st) /\ shape (nSet st) = shape (maska st).

Definition out_pixels (r : Result Locals) : grid Pixel :=
  match r with
  | Ok st => maskRGB st
  | Raise _ => []
  end.

(** ** A concrete display, for examples *)

Definition demo_to_rgb (color : string) : option (float * float * float) :=
  if String.eqb color "red" then Some (1, 0, 0)%float
  else if String.eqb color "lime" then Some (0, 1, 0)%float
  else if String.eqb color "blue" then Some (0, 0, 1)%float
  else if String.eqb color "green" then Some (0, 128 / 255, 0)%float
  else if String.eqb color "cyan" then Some (0, 1, 1)%float
  else if String.eqb color "magenta" then Some (1, 0, 1)%float
  else if String.eqb color "yellow" then Some (1, 1, 0)%float
  else if String.eqb color "orange" then Some (1, 165 / 255, 0)%float
  else None.

Definition demo_generator (n : nat) : string :=
  nth (n mod 7) ["red"; "green"; "blue"; "cyan"; "magenta"; "yellow"; "orange"]
    "red".

Definition demo_self : DisplayImpl :=
  mkDisplayImpl None [] (0.01 * 80)%float true [].

Definition mask_1x1 (v : Z) (planes : list (string * nat)) : Mask :=
  mkMask 1 1 [[v]] planes eq_refl.

(** BAD is red, SAT is lime, every other plane has no colour. *)
Definition red_lime (name : string) : option string :=
  if String.eqb name "BAD" then Some "red"
  else if String.eqb name "SAT" then Some "lime"
  else None.

(** BAD is ignored, SAT is lime, every other plane has no colour. *)
Definition ignore_lime (name : string) : option string :=
  if String.eqb name "BAD" then Some "IGNORE"
  else if String.eqb name "SAT" then Some "lime"
  else None.

(** BAD has a colour that is no colour name, every other plane has none. *)
Definition unknown_color (name : string) : option string :=
  if String.eqb name "BAD" then Some "notacolor" else None.

Definition demo_regions (symb : string) (c r size : float) : list string :=
  if String.eqb symb "+" then
    ["line 11 22 11 18 # color=red"; "line 9 20 13 20 # color=red"]
  else if String.eqb symb "@:1,0,1" then
    ["line 11 22 11 18"; "ellipse 11 20 1i 1i 0 # color=red"; "line 9 20 13 20"]
  else ["text 11 20 # color=red"].

Definition demo_float (p : string) : option float :=
  if String.eqb p "9" then Some 9%float
  else if String.eqb p "11" then Some 11%float
  else if String.eqb p "13" then Some 13%float
  else if String.eqb p "18" then Some 18%float
  else if String.eqb p "20" then Some 20%float
  else if String.eqb p "22" then Some 22%float
  else None.

Section Compositor.

(** Collaborators of the display object: [self.display.getMaskPlaneColor],
    the sequence yielded by [self.display.maskColorGenerator(omitBW=True)],
    matplotlib's [colorConverter.to_rgb] ([None] where it raises) and
    [self.display.getMaskTransparency()]. *)
Variable getMaskPlaneColor : string -> option string.
Variable maskColorGenerator : nat -> string.
Variable to_rgb : string -> option (float * float * float).
Variable display_getMaskTransparency : option float.

(** Lines 213-218: store the colour and count the plane where it is set.
    Where [to_rgb] raises, only the class of its exception is modelled: the
    text of matplotlib's message is not. *)
Definition paint (st : Locals) (isSet : grid bool) (color : string)
  (gen' : nat) : Result Locals :=
  match to_rgb color with
  | None => Raise (ValueError color)
  | Some (r, g, b) =>
      let rgb1 := masked_assign R (uint8_of_float (255 * r)) isSet (maskRGB st) in
      let rgb2 := masked_assign G (uint8_of_float (255 * g)) isSet rgb1 in
      let rgb3 := masked_assign B (uint8_of_float (255 * b)) isSet rgb2 in
      Ok (mkLocals (maska st) rgb3 (masked_incr isSet (nSet st)) gen')
  end.

(** One iteration of the loop over [mask.getMaskPlaneDict().items()]. *)
Definition plane_body (st : Locals) (item : string * nat) : Result Locals :=
  let '(maskPlaneName, maskPlaneNum) := item in
  let isSet := plane_isSet (maska st) maskPlaneNum in
  if gall negb isSet then Ok st
  else
    let color := getMaskPlaneColor maskPlaneName in
    if py_not color then
      paint st isSet (maskColorGenerator (colorGenerator st))
        (S (colorGenerator st))
    else if String.eqb (lower (color_text color)) "ignore" then Ok st
    else paint st isSet (color_text color) (colorGenerator st).

Fixpoint plane_loop (items : list (string * nat)) (st : Locals)
  : Result Locals :=
  match items with
  | [] => Ok st
  | item :: rest => st' <- plane_body st item ;; plane_loop rest st'
  end.

(** Lines 220-222. *)
Definition mask_alpha (self : DisplayImpl) : float :=
  match display_getMaskTransparency with
  | Some alpha => alpha
  | None => _getMaskTransparency self
  end.

(** Lines 224-225: the alpha plane. *)
Definition set_alpha (alpha : float) (st : Locals) : Locals :=
  let rgb1 := gmap (chan_set A (uint8_of_float (255 * (1 - alpha)))) (maskRGB st) in
  let rgb2 := gzip (fun n px => if n =? 0 then chan_set A 0 px else px)
                (nSet st) rgb1 in
  mkLocals (maska st) rgb2 (nSet st) (colorGenerator st).

(** Line 227: [nSet[nSet == 0] = 1]. *)
Definition avoid_zero (st : Locals) : Locals :=
  mkLocals (maska st) (maskRGB st)
    (gmap (fun n => if n =? 0 then 1 else n) (nSet st)) (colorGenerator st).

(** Lines 228-229: [for C in (R, G, B): maskRGB[:, :, C] //= nSet]. *)
Definition normalize (st : Locals) : Locals :=
  mkLocals (maska st)
    (fold_left (fun rgb C => channel_floor_divide C (nSet st) rgb) [R; G; B]
       (maskRGB st))
    (nSet st) (colorGenerator st).

(** Lines 194-199: the fresh arrays and the fresh generator. *)
Definition init_locals (mask : Mask) : Locals :=
  mkLocals (getArray mask)
    (np_full (getHeight mask) (getWidth mask) zero_pixel)
    (gmap (fun _ => 0) (getArray mask))
    O.

(** Lines 194-229: the final values of the locals. *)
Definition composite (self : DisplayImpl) (mask : Mask) : Result Locals :=
  st <- plane_loop (getMaskPlaneDict mask) (init_locals mask) ;;
  Ok (normalize (avoid_zero (set_alpha (mask_alpha self) st))).

(** [_mtv(self, image, mask, wcs)]; a mask that is [None] is [None] here. *)
Definition _mtv (self : DisplayImpl) (image : option (grid float))
  (mask : option Mask) (wcs : option Wcs) : Outcome :=
  let self1 := set_canvas [] (_erase self) in
  let self2 :=
    match image with
    | Some arr =>
        let astroImage := mkAstroImage arr None in
        let astroImage' :=
          match wcs with
          | Some w => set_wcs (mkWcsAdaptor w) astroImage
          | None => astroImage
          end in
        set_viewer_image astroImage' self1
    | None => self1
    end in
  match mask with
  | Some m =>
      match composite self2 m with
      | Ok st => (canvas_add (Image 0 0 (maskRGB st)) self2, None)
      | Raise e => (self2, Some e)
      end
  | None => (self2, None)
  end.


(** *** Notions used to state the properties *)

(** The plane is configured with the colour "ignore" (in any case). *)
Definition ignored (name : string) : bool :=
  negb (py_not (getMaskPlaneColor name)) &&
  String.eqb (lower (color_text (getMaskPlaneColor name))) "ignore".

(** The plane [item] contributes to a pixel whose mask value is [v]. *)
Definition contributes (v : Z) (item : string * nat) : bool :=
  bit_set v (snd item) && negb (ignored (fst item)).

Definition contributors (v : Z) (items : list (string * nat))
  : list (string * nat) :=
  filter (contributes v) items.

(** The colour a painted plane resolves to when [k] fallback colours have
    been drawn before it. *)
Definition resolved_color (name : string) (k : nat) : string :=
  if py_not (getMaskPlaneColor name) then maskColorGenerator k
  else color_text (getMaskPlaneColor name).

(** Every colour the loop can hand to [to_rgb] converts. *)
Definition colors_convert (items : list (string * nat)) : Prop :=
  (forall k, to_rgb (maskColorGenerator k) <> None) /\
  (forall item, In item items ->
     py_not (getMaskPlaneColor (fst item)) = false ->
     ignored (fst item) = false ->
     to_rgb (color_text (getMaskPlaneColor (fst item))) <> None).

(** The number of fallback colours the loop draws over [items]: one for
    each plane that has a pixel in [arr] and no colour. *)
Definition fallback_draws (arr : grid Z) (items : list (string * nat)) : nat :=
  List.length
    (filter
       (fun item =>
          negb (gall negb (plane_isSet arr (snd item))) &&
          py_not (getMaskPlaneColor (fst item)))
       items).

(** The locals after lines 224-229. *)
Definition finish (alpha : float) (st : Locals) : Locals :=
  normalize (avoid_zero (set_alpha alpha st)).

(** One pixel after lines 224-229, from its value [px] and its count [n]
    at the end of the loop. *)
Definition finish_pixel (alpha : float) (px : Pixel) (n : Z) : Pixel :=
  let d := if n =? 0 then 1 else n in
  mkPixel (floor_divide (pR px) d) (floor_divide (pG px) d)
    (floor_divide (pB px) d)
    (if n =? 0 then 0 else uint8_of_float (255 * (1 - alpha))).

(** * Properties *)

(** ** Arrays, cell by cell *)

Lemma nth_error_zipWith {T U V : Type} (f : T -> U -> V) (l1 : list T)
  (l2 : list U) (i : nat) :
  nth_error (zipWith f l1 l2) i =
  match nth_error l1 i, nth_error l2 i with
  | Some x, Some y => Some (f x y)
  | _, _ => None
  end.
Proof.
  revert l2 i. induction l1 as [|x l1 IH]; intros [|y l2] [|i]; simpl; auto.
  destruct (nth_error l1 i); reflexivity.
Qed.

Lemma gget_gmap {T U : Type} (f : T -> U) (g : grid T) (i j : nat) :
  gget (gmap f g) i j = option_map f (gget g i j).
Proof.
  unfold gget, gmap. rewrite nth_error_map.
  destruct (nth_error g i) as [row|]; simpl; [|reflexivity].
  apply nth_error_map.
Qed.

Lemma gget_gzip {T U V : Type} (f : T -> U -> V) (g1 : grid T) (g2 : grid U)
  (i j : nat) :
  gget (gzip f g1 g2) i j =
  match gget g1 i j, gget g2 i j with
  | Some x, Some y => Some (f x y)
  | _, _ => None
  end.
Proof.
  unfold gget, gzip. rewrite nth_error_zipWith.
  destruct (nth_error g1 i) as [r1|]; [|reflexivity].
  destruct (nth_error g2 i) as [r2|].
  - apply nth_error_zipWith.
  - destruct (nth_error r1 j); reflexivity.
Qed.

Lemma gget_defined {T : Type} (g : grid T) (i j : nat) :
  (exists x, gget g i j = Some x) <->
  (exists w, nth_error (shape g) i = Some w /\ (j < w)%nat).
Proof.
  unfold gget, shape. rewrite nth_error_map.
  destruct (nth_error g i) as [row|]; simpl.
  - split.
    + intros [x Hx]. exists (List.length row). split; [reflexivity|].
      apply nth_error_Some. congruence.
    + intros [w [Hw Hj]]. inversion Hw; subst.
      destruct (nth_error row j) eqn:E; [eauto|].
      apply nth_error_None in E. lia.
  - split; intros [x Hx]; [discriminate | destruct Hx; discriminate].
Qed.

Lemma same_shape_defined {T U : Type} (g1 : grid T) (g2 : grid U) (i j : nat)
  (x : T) :
  shape g1 = shape g2 -> gget g1 i j = Some x -> exists y, gget g2 i j = Some y.
Proof.
  intros Hs Hx. apply gget_defined. rewrite <- Hs. apply gget_defined. eauto.
Qed.

Lemma shape_gmap {T U : Type} (f : T -> U) (g : grid T) :
  shape (gmap f g) = shape g.
Proof.
  unfold shape, gmap. rewrite map_map. apply map_ext. intros row.
  apply length_map.
Qed.

Lemma shape_np_full {T : Type} (h w : nat) (z : T) :
  shape (np_full h w z) = repeat w h.
Proof.
  unfold shape, np_full. induction h as [|h IH]; simpl; [reflexivity|].
  rewrite repeat_length, IH. reflexivity.
Qed.

Lemma nth_error_repeat_some {T : Type} (z x : T) (n i : nat) :
  nth_error (repeat z n) i = Some x -> x = z.
Proof.
  intros H. apply nth_error_In in H. apply repeat_spec in H. exact H.
Qed.

Lemma gget_np_full {T : Type} (h w : nat) (z x : T) (i j : nat) :
  gget (np_full h w z) i j = Some x -> x = z.
Proof.
  unfold gget, np_full. destruct (nth_error _ i) as [row|] eqn:E; [|discriminate].
  apply nth_error_repeat_some in E. subst row. apply nth_error_repeat_some.
Qed.

Lemma gall_gget {T : Type} (p : T -> bool) (g : grid T) (i j : nat) (x : T) :
  gall p g = true -> gget g i j = Some x -> p x = true.
Proof.
  unfold gall, gget. intros Hall Hx.
  destruct (nth_error g i) as [row|] eqn:E; [|discriminate].
  rewrite forallb_forall in Hall. apply nth_error_In in E.
  specialize (Hall row E). rewrite forallb_forall in Hall.
  apply Hall. eapply nth_error_In. exact Hx.
Qed.

Lemma gall_intro {T : Type} (p : T -> bool) (g : grid T) :
  (forall i j x, gget g i j = Some x -> p x = true) -> gall p g = true.
Proof.
  intros H. unfold gall. apply forallb_forall. intros row Hrow.
  apply forallb_forall. intros x Hx.
  apply In_nth_error in Hrow. destruct Hrow as [i Hi].
  apply In_nth_error in Hx. destruct Hx as [j Hj].
  apply (H i j). unfold gget. rewrite Hi. exact Hj.
Qed.

Lemma bind_ok {T U : Type} (m : Result T) (k : T -> Result U) (u : U) :
  bind m k = Ok u -> exists t, m = Ok t /\ k t = Ok u.
Proof. destruct m as [t|e]; simpl; [eauto | discriminate]. Qed.

Lemma uint8_of_float_range (f : float) : 0 <= uint8_of_float f < 256.
Proof. unfold uint8_of_float. apply Z.mod_pos_bound. lia. Qed.

(** ** The loop over the mask planes *)

Lemma paint_cell (st st' : Locals) (num : nat) (color : string) (k' : nat) :
  paint st (plane_isSet (maska st) num) color k' = Ok st' ->
  exists c, to_rgb color = Some c /\
    maska st' = maska st /\ colorGenerator st' = k' /\
    forall i j v px n,
      gget (maska st) i j = Some v ->
      gget (maskRGB st) i j = Some px ->
      gget (nSet st) i j = Some n ->
      gget (maskRGB st') i j =
        Some (if bit_set v num then with_rgb (rgb8 c) px else px) /\
      gget (nSet st') i j = Some (if bit_set v num then (n + 1) mod 256 else n).
Proof.
  unfold paint. destruct (to_rgb color) as [[[r g] b]|]; [|discriminate].
  intros H. inversion H; subst; clear H. exists (r, g, b). simpl.
  repeat split; auto.
  - unfold masked_assign. rewrite !gget_gzip. unfold plane_isSet.
    rewrite gget_gmap, H, H0. simpl. destruct (bit_set v num); reflexivity.
  - unfold masked_incr. rewrite gget_gzip. unfold plane_isSet.
    rewrite gget_gmap, H, H1. simpl. destruct (bit_set v num); reflexivity.
Qed.

Lemma empty_plane_bit (arr : grid Z) (item : string * nat) (i j : nat) (v : Z) :
  empty_plane arr item -> gget arr i j = Some v -> bit_set v (snd item) = false.
Proof.
  unfold empty_plane. intros He Hv.
  assert (Hb : gget (plane_isSet arr (snd item)) i j = Some (bit_set v (snd item))).
  { unfold plane_isSet. rewrite gget_gmap, Hv. reflexivity. }
  pose proof (gall_gget _ _ _ _ _ He Hb) as Hn.
  destruct (bit_set v (snd item)); [discriminate | reflexivity].
Qed.

Lemma plane_body_empty (st : Locals) (item : string * nat) :
  empty_plane (maska st) item -> plane_body st item = Ok st.
Proof.
  unfold empty_plane, plane_body. destruct item as [name num]. simpl.
  intros ->. reflexivity.
Qed.

Lemma plane_body_ignored (st : Locals) (item : string * nat) :
  ignored (fst item) = true -> plane_body st item = Ok st.
Proof.
  unfold ignored, plane_body. destruct item as [name num]. simpl.
  intros H. apply andb_true_iff in H. destruct H as [Hn Hi].
  apply negb_true_iff in Hn. rewrite Hn, Hi.
  destruct (gall negb _); reflexivity.
Qed.

Lemma plane_body_paint (st : Locals) (item : string * nat) :
  gall negb (plane_isSet (maska st) (snd item)) = false ->
  ignored (fst item) = false ->
  plane_body st item =
    paint st (plane_isSet (maska st) (snd item))
      (resolved_color (fst item) (colorGenerator st))
      (if py_not (getMaskPlaneColor (fst item)) then S (colorGenerator st)
       else colorGenerator st).
Proof.
  destruct item as [name num]. simpl.
  unfold ignored, plane_body, resolved_color. intros -> Hi.
  destruct (py_not (getMaskPlaneColor name)); simpl in *; [reflexivity|].
  rewrite Hi. reflexivity.
Qed.

Lemma plane_body_cell (st st' : Locals) (item : string * nat) :
  plane_body st item = Ok st' ->
  maska st' = maska st /\
  forall i j v px n,
    gget (maska st) i j = Some v ->
    gget (maskRGB st) i j = Some px ->
    gget (nSet st) i j = Some n ->
    exists px',
      gget (maskRGB st') i j = Some px' /\
      gget (nSet st') i j =
        Some (if contributes v item then (n + 1) mod 256 else n) /\
      if contributes v item
      then exists c,
          to_rgb (resolved_color (fst item) (colorGenerator st)) = Some c /\
          px' = with_rgb (rgb8 c) px
      else px' = px.
Proof.
  intros Hb.
  destruct (gall negb (plane_isSet (maska st) (snd item))) eqn:Hall.
  { rewrite plane_body_empty in Hb by exact Hall. inversion Hb; subst st'.
    split; [reflexivity|]. intros i j v px n Hv Hpx Hn. exists px.
    unfold contributes. rewrite (empty_plane_bit _ _ _ _ _ Hall Hv). simpl. auto. }
  destruct (ignored (fst item)) eqn:Hig.
  { rewrite plane_body_ignored in Hb by exact Hig. inversion Hb; subst st'.
    split; [reflexivity|]. intros i j v px n Hv Hpx Hn. exists px.
    unfold contributes. rewrite Hig, andb_false_r. auto. }
  rewrite plane_body_paint in Hb by assumption.
  apply paint_cell in Hb. destruct Hb as [c [Hc [Hm [_ Hcell]]]].
  split; [exact Hm|]. intros i j v px n Hv Hpx Hn.
  destruct (Hcell i j v px n Hv Hpx Hn) as [H1 H2].
  unfold contributes. rewrite Hig, andb_true_r.
  exists (if bit_set v (snd item) then with_rgb (rgb8 c) px else px).
  repeat split; auto. destruct (bit_set v (snd item)); eauto.
Qed.

Lemma with_rgb_in_range (c : float * float * float) (px : Pixel) :
  rgb_in_range (with_rgb (rgb8 c) px).
Proof.
  destruct c as [[r g] b]. unfold rgb_in_range. simpl.
  repeat split; apply uint8_of_float_range.
Qed.

Lemma plane_loop_cell (items : list (string * nat)) (st st' : Locals) :
  plane_loop items st = Ok st' ->
  maska st' = maska st /\
  forall i j v px n,
    gget (maska st) i j = Some v ->
    gget (maskRGB st) i j = Some px ->
    gget (nSet st) i j = Some n ->
    0 <= n < 256 ->
    exists px',
      gget (maskRGB st') i j = Some px' /\
      gget (nSet st') i j =
        Some ((n + Z.of_nat (List.length (contributors v items))) mod 256) /\
      pA px' = pA px /\
      (contributors v items = [] -> px' = px) /\
      (rgb_in_range px -> rgb_in_range px').
Proof.
  revert st. induction items as [|item rest IH]; intros st Hl; simpl in Hl.
  - inversion Hl; subst st'. split; [reflexivity|].
    intros i j v px n Hv Hpx Hn Hr. exists px. simpl.
    rewrite Z.add_0_r, Z.mod_small by lia. auto.
  - apply bind_ok in Hl. destruct Hl as [st1 [Hb Hl]].
    apply plane_body_cell in Hb. destruct Hb as [Hm1 Hcell1].
    apply IH in Hl. destruct Hl as [Hm Hcell].
    split; [congruence|]. intros i j v px n Hv Hpx Hn Hr.
    destruct (Hcell1 i j v px n Hv Hpx Hn) as [px1 [Hpx1 [Hn1 Hc1]]].
    rewrite <- Hm1 in Hv.
    assert (Hr1 : 0 <= (if contributes v item then (n + 1) mod 256 else n) < 256).
    { destruct (contributes v item); [apply Z.mod_pos_bound|]; lia. }
    destruct (Hcell i j v px1 _ Hv Hpx1 Hn1 Hr1) as [px' [Hpx' [Hn' [Ha [Hnone Hrg]]]]].
    exists px'. unfold contributors in *. simpl.
    destruct (contributes v item).
    + destruct Hc1 as [c [Hc Hw]].
      split; [exact Hpx'|]. split; [|split; [|split]].
      * rewrite Hn'. f_equal. simpl List.length. rewrite Nat2Z.inj_succ.
        rewrite Z.add_mod_idemp_l by lia. f_equal. lia.
      * rewrite Ha, Hw. destruct (rgb8 c) as [[r g] b]. reflexivity.
      * discriminate.
      * intros _. apply Hrg. rewrite Hw. apply with_rgb_in_range.
    + subst px1. auto.
Qed.

Lemma contributors_length (v : Z) (items : list (string * nat)) :
  (List.length (contributors v items) <= List.length items)%nat.
Proof. apply filter_length_le. Qed.

Lemma finish_cell (alpha : float) (st : Locals) (i j : nat) (px : Pixel) (n : Z) :
  gget (maskRGB st) i j = Some px ->
  gget (nSet st) i j = Some n ->
  gget (maskRGB (finish alpha st)) i j = Some (finish_pixel alpha px n).
Proof.
  intros Hpx Hn. unfold finish, normalize, avoid_zero, set_alpha. simpl.
  unfold channel_floor_divide. rewrite !gget_gzip, !gget_gmap, Hpx, Hn. simpl.
  unfold finish_pixel. destruct (n =? 0); reflexivity.
Qed.

Lemma init_cell (mask : Mask) (i j : nat) (v : Z) :
  gget (getArray mask) i j = Some v ->
  gget (maskRGB (init_locals mask)) i j = Some zero_pixel /\
  gget (nSet (init_locals mask)) i j = Some 0.
Proof.
  intros Hv. unfold init_locals. simpl. split.
  - destruct (same_shape_defined (getArray mask)
                (np_full (getHeight mask) (getWidth mask) zero_pixel) i j v)
      as [px Hpx]; [|exact Hv|].
    + rewrite shape_np_full. apply array_shape.
    + rewrite Hpx. f_equal. eapply gget_np_full. exact Hpx.
  - rewrite gget_gmap, Hv. reflexivity.
Qed.

Lemma composite_inv (self : DisplayImpl) (mask : Mask) (out : Locals) :
  composite self mask = Ok out ->
  exists st,
    plane_loop (getMaskPlaneDict mask) (init_locals mask) = Ok st /\
    out = finish (mask_alpha self) st.
Proof.
  unfold composite. intros H. apply bind_ok in H. destruct H as [st [Hl H]].
  inversion H. eauto.
Qed.

Lemma plane_loop_app (l1 l2 : list (string * nat)) (st : Locals) :
  plane_loop (l1 ++ l2) st = (st' <- plane_loop l1 st ;; plane_loop l2 st').
Proof.
  revert st. induction l1 as [|item l1 IH]; intros st; simpl; [reflexivity|].
  destruct (plane_body st item) as [st1|e]; simpl; [apply IH | reflexivity].
Qed.

Lemma plane_loop_cons (item : string * nat) (rest : list (string * nat))
  (st : Locals) :
  plane_loop (item :: rest) st = (st' <- plane_body st item ;; plane_loop rest st').
Proof. reflexivity. Qed.

Lemma plane_loop_maska (items : list (string * nat)) (st st' : Locals) :
  plane_loop items st = Ok st' -> maska st' = maska st.
Proof. intros H. apply plane_loop_cell in H. apply H. Qed.

Lemma plane_loop_empty (items : list (string * nat)) (st : Locals) :
  Forall (empty_plane (maska st)) items -> plane_loop items st = Ok st.
Proof.
  induction 1 as [|item rest He _ IH]; simpl; [reflexivity|].
  rewrite plane_body_empty by exact He. simpl. exact IH.
Qed.

Lemma resolved_color_converts (items : list (string * nat)) (item : string * nat)
  (k : nat) :
  colors_convert items -> In item items -> ignored (fst item) = false ->
  to_rgb (resolved_color (fst item) k) <> None.
Proof.
  intros [Hgen Hexp] Hin Hig. unfold resolved_color.
  destruct (py_not (getMaskPlaneColor (fst item))) eqn:Hn; auto.
Qed.

Lemma plane_body_total (st : Locals) (item : string * nat) :
  (ignored (fst item) = false ->
   to_rgb (resolved_color (fst item) (colorGenerator st)) <> None) ->
  exists st', plane_body st item = Ok st'.
Proof.
  intros Hc.
  destruct (gall negb (plane_isSet (maska st) (snd item))) eqn:Hall.
  { exists st. apply plane_body_empty. exact Hall. }
  destruct (ignored (fst item)) eqn:Hig.
  { exists st. apply plane_body_ignored. exact Hig. }
  rewrite plane_body_paint by assumption. unfold paint.
  destruct (to_rgb _) as [[[r g] b]|]; [eauto|]. exfalso. apply Hc; reflexivity.
Qed.

Lemma plane_loop_total (items : list (string * nat)) (st : Locals) :
  colors_convert items -> exists st', plane_loop items st = Ok st'.
Proof.
  revert st. induction items as [|item rest IH]; intros st Hc; simpl; [eauto|].
  destruct (plane_body_total st item) as [st1 H1].
  { intros Hig. eapply resolved_color_converts; eauto. left. reflexivity. }
  rewrite H1. simpl. apply IH. destruct Hc as [Hgen Hexp]. split; [exact Hgen|].
  intros it Hin. apply Hexp. right. exact Hin.
Qed.

(** The output image has the dimensions of the mask. *)
Lemma length_zipWith {T U V : Type} (f : T -> U -> V) (l1 : list T) (l2 : list U) :
  List.length l1 = List.length l2 ->
  List.length (zipWith f l1 l2) = List.length l2.
Proof.
  revert l2. induction l1 as [|x l1 IH]; intros [|y l2] H; simpl in *;
    try discriminate; auto.
Qed.

Lemma shape_gzip {T U V : Type} (f : T -> U -> V) (g1 : grid T) (g2 : grid U) :
  shape g1 = shape g2 -> shape (gzip f g1 g2) = shape g2.
Proof.
  unfold shape, gzip. revert g2.
  induction g1 as [|r1 g1 IH]; intros [|r2 g2] H; simpl in *;
    try discriminate; auto.
  injection H as H1 H2.
  rewrite (length_zipWith f r1 r2 H1), (IH g2 H2). reflexivity.
Qed.

Lemma shape_gzip_as {T U V : Type} (f : T -> U -> V) (g1 : grid T) (g2 : grid U)
  (sh : list nat) :
  shape g1 = sh -> shape g2 = sh -> shape (gzip f g1 g2) = sh.
Proof. intros H1 H2. rewrite shape_gzip; congruence. Qed.

Lemma plane_body_shape (st st' : Locals) (item : string * nat) :
  plane_body st item = Ok st' -> well_shaped st -> well_shaped st'.
Proof.
  intros Hb [Hrgb Hn].
  destruct (gall negb (plane_isSet (maska st) (snd item))) eqn:Hall.
  { rewrite plane_body_empty in Hb by exact Hall. inversion Hb; subst. split; auto. }
  destruct (ignored (fst item)) eqn:Hig.
  { rewrite plane_body_ignored in Hb by exact Hig. inversion Hb; subst. split; auto. }
  rewrite plane_body_paint in Hb by assumption. unfold paint in Hb.
  destruct (to_rgb _) as [[[r g] b]|]; [|discriminate].
  inversion Hb; subst; clear Hb. unfold well_shaped. simpl.
  assert (Hs : shape (plane_isSet (maska st) (snd item)) = shape (maska st))
    by apply shape_gmap.
  unfold masked_assign, masked_incr.
  split; repeat apply shape_gzip_as; assumption.
Qed.

Lemma plane_loop_shape (items : list (string * nat)) (st st' : Locals) :
  plane_loop items st = Ok st' -> well_shaped st -> well_shaped st'.
Proof.
  revert st. induction items as [|item rest IH]; intros st Hl Hw; simpl in Hl.
  - inversion Hl; subst. exact Hw.
  - apply bind_ok in Hl. destruct Hl as [st1 [Hb Hl]].
    eapply IH; [exact Hl|]. eapply plane_body_shape; eauto.
Qed.

Lemma init_shape (mask : Mask) : well_shaped (init_locals mask).
Proof.
  unfold well_shaped, init_locals. simpl. split.
  - rewrite shape_np_full. symmetry. apply array_shape.
  - apply shape_gmap.
Qed.

Lemma finish_shape (alpha : float) (st : Locals) :
  well_shaped st -> well_shaped (finish alpha st).
Proof.
  intros [Hrgb Hn]. unfold well_shaped, finish, normalize, avoid_zero, set_alpha.
  simpl. unfold channel_floor_divide.
  split; [|rewrite shape_gmap; exact Hn].
  repeat apply shape_gzip_as; rewrite ?shape_gmap; assumption.
Qed.

Lemma composite_ok (self : DisplayImpl) (mask : Mask) (st : Locals) :
  plane_loop (getMaskPlaneDict mask) (init_locals mask) = Ok st ->
  composite self mask = Ok (finish (mask_alpha self) st).
Proof. unfold composite. intros ->. reflexivity. Qed.

Lemma loop_cell_from_init (mask : Mask) (st : Locals) (i j : nat) (v : Z) :
  plane_loop (getMaskPlaneDict mask) (init_locals mask) = Ok st ->
  (List.length (getMaskPlaneDict mask) < 256)%nat ->
  gget (getArray mask) i j = Some v ->
  exists px,
    gget (maskRGB st) i j = Some px /\
    gget (nSet st) i j =
      Some (Z.of_nat (List.length (contributors v (getMaskPlaneDict mask)))) /\
    rgb_in_range px /\
    (contributors v (getMaskPlaneDict mask) = [] -> px = zero_pixel).
Proof.
  intros Hl Hlen Hv. apply plane_loop_cell in Hl. destruct Hl as [_ Hcell].
  destruct (init_cell mask i j v Hv) as [Hpx0 Hn0].
  destruct (Hcell i j v zero_pixel 0 Hv Hpx0 Hn0) as [px [Hpx [Hn [_ [Hz Hr]]]]];
    [lia|].
  exists px. split; [exact Hpx|]. split; [|split; [|exact Hz]].
  - rewrite Hn. f_equal. rewrite Z.add_0_l. apply Z.mod_small.
    pose proof (contributors_length v (getMaskPlaneDict mask)). lia.
  - apply Hr. unfold rgb_in_range, zero_pixel. simpl. lia.
Qed.

Lemma existsb_contributors (v : Z) (items : list (string * nat)) :
  existsb (contributes v) items =
  negb (Z.of_nat (List.length (contributors v items)) =? 0).
Proof.
  unfold contributors. induction items as [|item rest IH]; simpl; [reflexivity|].
  destruct (contributes v item); [|exact IH].
  simpl List.length. symmetry. apply negb_true_iff, Z.eqb_neq. lia.
Qed.

Lemma bit_set_zero (num : nat) : bit_set 0 num = false.
Proof. reflexivity. Qed.

Lemma output_cell_has_mask (mask : Mask) (st : Locals) (alpha : float)
  (i j : nat) (px : Pixel) :
  plane_loop (getMaskPlaneDict mask) (init_locals mask) = Ok st ->
  gget (maskRGB (finish alpha st)) i j = Some px ->
  exists v, gget (getArray mask) i j = Some v.
Proof.
  intros Hl Hpx.
  assert (Hw : well_shaped (finish alpha st)).
  { apply finish_shape. eapply plane_loop_shape; [exact Hl | apply init_shape]. }
  destruct Hw as [Hrgb _].
  apply plane_loop_maska in Hl. simpl in Hl.
  replace (maska (finish alpha st)) with (getArray mask) in Hrgb
    by (symmetry; exact Hl).
  eapply same_shape_defined; eauto.
Qed.

(** C3: once every plane is processed, the alpha byte of a pixel is the
    [uint8] value of [255 * (1 - alpha)] where some plane contributes and 0
    where none does; a mask of zeros gives alpha 0 at every pixel of the
    output. *)
Theorem alpha_channel (self : DisplayImpl) (mask : Mask) :
  colors_convert (getMaskPlaneDict mask) ->
  (List.length (getMaskPlaneDict mask) < 256)%nat ->
  exists out,
    composite self mask = Ok out /\
    (forall i j v,
       gget (getArray mask) i j = Some v ->
       exists px,
         gget (maskRGB out) i j = Some px /\
         pA px =
           if existsb (contributes v) (getMaskPlaneDict mask)
           then uint8_of_float
                  (255 * (1 - mask_alpha self))
           else 0) /\
    (gall (fun v => v =? 0) (getArray mask) = true ->
     forall i j px, gget (maskRGB out) i j = Some px -> pA px = 0).
Proof.
  intros Hc Hlen.
  destruct (plane_loop_total (getMaskPlaneDict mask) (init_locals mask) Hc)
    as [st Hl].
  exists (finish (mask_alpha self) st).
  split; [apply composite_ok; exact Hl|].
  assert (Hcell : forall i j v,
    gget (getArray mask) i j = Some v ->
    exists px,
      gget (maskRGB (finish (mask_alpha self) st)) i j
        = Some px /\
      pA px =
        if existsb (contributes v) (getMaskPlaneDict mask)
        then uint8_of_float
               (255 * (1 - mask_alpha self))
        else 0).
  { intros i j v Hv.
    destruct (loop_cell_from_init mask st i j v Hl Hlen Hv)
      as [px [Hpx [Hn _]]].
    eexists. split; [eapply finish_cell; eauto|].
    rewrite existsb_contributors. simpl.
    destruct (_ =? 0); reflexivity. }
  split; [exact Hcell|].
  intros Hzero i j px Hpx.
  destruct (output_cell_has_mask mask st _ i j px Hl Hpx) as [v Hv].
  destruct (Hcell i j v Hv) as [px' [Hpx' Ha]].
  rewrite Hpx in Hpx'. inversion Hpx'; subst px'. rewrite Ha.
  pose proof (gall_gget _ _ _ _ _ Hzero Hv) as Hv0. simpl in Hv0.
  apply Z.eqb_eq in Hv0. subst v.
  replace (existsb (contributes 0) (getMaskPlaneDict mask)) with false;
    [reflexivity|].
  symmetry. apply not_true_is_false. intros H.
  apply existsb_exists in H. destruct H as [item [_ H]].
  unfold contributes in H. rewrite bit_set_zero in H. discriminate.
Qed.

Lemma floor_divide_quot (a d : Z) :
  0 <= a -> 1 <= d -> floor_divide a d = Z.quot a d.
Proof.
  intros Ha Hd. unfold floor_divide.
  destruct (d =? 0) eqn:E; [apply Z.eqb_eq in E; lia|].
  symmetry. apply Z.quot_div_nonneg; lia.
Qed.

(** C7: the divisors used by the normalisation are never 0; a pixel with
    no contributing plane is divided by 1 and keeps its RGB of zero, and a
    pixel with [count >= 1] contributing planes has each of R, G, B divided
    by [count], truncating toward zero. *)
Theorem normalization_safe (self : DisplayImpl) (mask : Mask) :
  colors_convert (getMaskPlaneDict mask) ->
  (List.length (getMaskPlaneDict mask) < 256)%nat ->
  exists st out,
    plane_loop (getMaskPlaneDict mask) (init_locals mask) = Ok st /\
    composite self mask = Ok out /\
    gall (fun n => negb (n =? 0)) (nSet out) = true /\
    forall i j v,
      gget (getArray mask) i j = Some v ->
      exists px px' d,
        gget (maskRGB st) i j = Some px /\
        gget (nSet out) i j = Some d /\
        gget (maskRGB out) i j = Some px' /\
        let count :=
          Z.of_nat (List.length (contributors v (getMaskPlaneDict mask))) in
        (count = 0 ->
         d = 1 /\ (pR px, pG px, pB px) = (0, 0, 0) /\
         (pR px', pG px', pB px') = (0, 0, 0)) /\
        (1 <= count ->
         d = count /\ pR px' = Z.quot (pR px) count /\
         pG px' = Z.quot (pG px) count /\ pB px' = Z.quot (pB px) count).
Proof.
  intros Hc Hlen.
  destruct (plane_loop_total (getMaskPlaneDict mask) (init_locals mask) Hc)
    as [st Hl].
  exists st, (finish (mask_alpha self) st).
  split; [exact Hl|]. split; [apply composite_ok; exact Hl|]. split.
  - simpl. apply gall_intro. intros i j x Hx. rewrite gget_gmap in Hx.
    destruct (gget (nSet st) i j) as [n|]; [|discriminate].
    simpl in Hx. inversion Hx; subst x.
    destruct (n =? 0) eqn:E; [reflexivity | rewrite E; reflexivity].
  - intros i j v Hv.
    destruct (loop_cell_from_init mask st i j v Hl Hlen Hv)
      as [px [Hpx [Hn [Hr Hz]]]].
    set (count := Z.of_nat (List.length (contributors v (getMaskPlaneDict mask))))
      in *.
    exists px, (finish_pixel (mask_alpha self) px count),
      (if count =? 0 then 1 else count).
    split; [exact Hpx|]. split; [simpl; rewrite gget_gmap, Hn; reflexivity|].
    split; [apply finish_cell; assumption|]. simpl. split.
    + intros H0. rewrite H0. simpl.
      assert (Hnil : contributors v (getMaskPlaneDict mask) = []).
      { apply length_zero_iff_nil. unfold count in H0. lia. }
      rewrite (Hz Hnil). auto.
    + intros H1. destruct Hr as [HR [HG HB]].
      destruct (count =? 0) eqn:E; [apply Z.eqb_eq in E; lia|].
      repeat split; apply floor_divide_quot; lia.
Qed.

(** C4: when one plane covers the whole grid and no other plane has a
    pixel, every output pixel carries that plane's resolved colour bytes
    and the global alpha byte. *)
Theorem single_plane_color (self : DisplayImpl) (mask : Mask)
  (l1 l2 : list (string * nat)) (name : string) (num : nat)
  (c : float * float * float) :
  getMaskPlaneDict mask = (l1 ++ (name, num) :: l2)%list ->
  Forall (empty_plane (getArray mask)) (l1 ++ l2) ->
  gall (fun v => bit_set v num) (getArray mask) = true ->
  ignored name = false ->
  to_rgb (resolved_color name 0) = Some c ->
  exists out,
    composite self mask = Ok out /\
    forall i j v,
      gget (getArray mask) i j = Some v ->
      gget (maskRGB out) i j =
        Some (with_rgb (rgb8 c)
                (mkPixel 0 0 0
                   (uint8_of_float
                      (255 * (1 - mask_alpha self))))).
Proof.
  intros Hdict Hothers Hcover Hig Hc.
  apply Forall_app in Hothers. destruct Hothers as [He1 He2].
  destruct (plane_body_total (init_locals mask) (name, num)) as [st1 Hb].
  { intros _. simpl. rewrite Hc. discriminate. }
  assert (Hl : plane_loop (getMaskPlaneDict mask) (init_locals mask) = Ok st1).
  { rewrite Hdict, plane_loop_app, plane_loop_empty by exact He1.
    cbn [bind]. rewrite plane_loop_cons, Hb. cbn [bind]. apply plane_loop_empty.
    apply plane_body_cell in Hb. destruct Hb as [Hm _]. rewrite Hm. exact He2. }
  exists (finish (mask_alpha self) st1).
  split; [apply composite_ok; exact Hl|].
  intros i j v Hv.
  destruct (init_cell mask i j v Hv) as [Hpx0 Hn0].
  apply plane_body_cell in Hb. destruct Hb as [_ Hcell].
  destruct (Hcell i j v zero_pixel 0 Hv Hpx0 Hn0) as [px [Hpx [Hn Hcol]]].
  assert (Hcon : contributes v (name, num) = true).
  { unfold contributes. simpl. rewrite Hig.
    rewrite (gall_gget _ _ _ _ _ Hcover Hv). reflexivity. }
  rewrite Hcon in Hn, Hcol. destruct Hcol as [c' [Hc' Hw]].
  simpl in Hc'. rewrite Hc in Hc'. inversion Hc'; subst c'.
  rewrite (finish_cell _ st1 i j px 1 Hpx Hn). subst px.
  destruct (rgb8 c) as [[r g] b]. unfold finish_pixel, floor_divide. simpl.
  rewrite !Z.div_1_r. reflexivity.
Qed.

(** C5: a plane with no pixel set is skipped before its colour is looked
    up, whatever its configured colour: the locals, among them the
    position of the fallback generator, are unchanged, and the loop over a
    dictionary with the plane equals the loop over the dictionary without
    it. *)
Theorem empty_plane_skipped (st : Locals) (item : string * nat) :
  empty_plane (maska st) item ->
  plane_body st item = Ok st /\
  forall l1 l2, plane_loop (l1 ++ item :: l2) st = plane_loop (l1 ++ l2) st.
Proof.
  intros He. split; [apply plane_body_empty; exact He|].
  intros l1 l2. rewrite !plane_loop_app.
  destruct (plane_loop l1 st) as [st1|e] eqn:H1; simpl; [|reflexivity].
  apply plane_loop_maska in H1.
  rewrite plane_body_empty by (rewrite H1; exact He). reflexivity.
Qed.

Lemma lower_ignore_ignored (name c : string) :
  getMaskPlaneColor name = Some c -> lower c = "ignore" -> ignored name = true.
Proof.
  intros Hc Hl. unfold ignored. rewrite Hc. simpl. rewrite Hl.
  destruct c; [discriminate | reflexivity].
Qed.

Lemma paint_returns (st : Locals) (isSet : grid bool) (color : string)
  (gen' : nat) (c : float * float * float) :
  to_rgb color = Some c -> exists st', paint st isSet color gen' = Ok st'.
Proof.
  intros Hc. unfold paint. rewrite Hc. destruct c as [[r g] b]. eauto.
Qed.

(** What one iteration does for a plane that has a pixel and is painted
    with a colour that converts to [c]. *)
Lemma plane_body_painted (st : Locals) (item : string * nat) (color : string)
  (gen' : nat) (c : float * float * float) :
  plane_body st item =
    paint st (plane_isSet (maska st) (snd item)) color gen' ->
  to_rgb color = Some c ->
  exists st',
    plane_body st item = Ok st' /\
    colorGenerator st' = gen' /\
    maska st' = maska st /\
    forall i j v px n,
      gget (maska st) i j = Some v ->
      gget (maskRGB st) i j = Some px ->
      gget (nSet st) i j = Some n ->
      gget (maskRGB st') i j =
        Some (if bit_set v (snd item) then with_rgb (rgb8 c) px else px) /\
      gget (nSet st') i j =
        Some (if bit_set v (snd item) then (n + 1) mod 256 else n).
Proof.
  intros Hb Hc.
  destruct (paint_returns st (plane_isSet (maska st) (snd item)) color gen' c Hc)
    as [st' Hp].
  exists st'. split; [congruence|].
  apply paint_cell in Hp. destruct Hp as [c' [Hc' [Hm [Hg Hcell]]]].
  rewrite Hc in Hc'. inversion Hc'; subst c'. auto.
Qed.

(** C6: a plane whose colour is "ignore" leaves the locals and the fallback
    generator as they were, so the planes after it are treated as if it
    were absent. A plane with a pixel and no colour draws the colour at the
    generator's position, which moves on by one, and that colour's bytes
    are stored, and the count raised, at exactly the pixels of the plane. A
    plane with a pixel and an ordinary colour stores the bytes of that
    colour in the same way and leaves the generator where it was. *)
Theorem ignore_skips_plane :
  (forall st item c,
     getMaskPlaneColor (fst item) = Some c -> lower c = "ignore" ->
     plane_body st item = Ok st /\
     forall l1 l2, plane_loop (l1 ++ item :: l2) st = plane_loop (l1 ++ l2) st) /\
  (forall st item rgb,
     gall negb (plane_isSet (maska st) (snd item)) = false ->
     py_not (getMaskPlaneColor (fst item)) = true ->
     to_rgb (maskColorGenerator (colorGenerator st)) = Some rgb ->
     exists st',
       plane_body st item = Ok st' /\
       colorGenerator st' = S (colorGenerator st) /\
       maska st' = maska st /\
       forall i j v px n,
         gget (maska st) i j = Some v ->
         gget (maskRGB st) i j = Some px ->
         gget (nSet st) i j = Some n ->
         gget (maskRGB st') i j =
           Some (if bit_set v (snd item) then with_rgb (rgb8 rgb) px else px) /\
         gget (nSet st') i j =
           Some (if bit_set v (snd item) then (n + 1) mod 256 else n)) /\
  (forall st item c rgb,
     gall negb (plane_isSet (maska st) (snd item)) = false ->
     getMaskPlaneColor (fst item) = Some c -> c <> "" ->
     lower c <> "ignore" ->
     to_rgb c = Some rgb ->
     exists st',
       plane_body st item = Ok st' /\
       colorGenerator st' = colorGenerator st /\
       maska st' = maska st /\
       forall i j v px n,
         gget (maska st) i j = Some v ->
         gget (maskRGB st) i j = Some px ->
         gget (nSet st) i j = Some n ->
         gget (maskRGB st') i j =
           Some (if bit_set v (snd item) then with_rgb (rgb8 rgb) px else px) /\
         gget (nSet st') i j =
           Some (if bit_set v (snd item) then (n + 1) mod 256 else n)).
Proof.
  split; [|split].
  - intros st item c Hc Hl.
    pose proof (lower_ignore_ignored _ _ Hc Hl) as Hig.
    split; [apply plane_body_ignored; exact Hig|].
    intros l1 l2. rewrite !plane_loop_app.
    destruct (plane_loop l1 st) as [st1|e]; simpl; [|reflexivity].
    rewrite plane_body_ignored by exact Hig. reflexivity.
  - intros st item rgb Hne Hnot Hrgb.
    apply (plane_body_painted st item
             (maskColorGenerator (colorGenerator st)) (S (colorGenerator st)));
      [|exact Hrgb].
    rewrite plane_body_paint; [|exact Hne|].
    + unfold resolved_color. rewrite Hnot. reflexivity.
    + unfold ignored. rewrite Hnot. reflexivity.
  - intros st item c rgb Hne Hc Hc0 Hl Hrgb.
    assert (Hnot : py_not (getMaskPlaneColor (fst item)) = false).
    { rewrite Hc. simpl. apply String.eqb_neq. exact Hc0. }
    apply (plane_body_painted st item c (colorGenerator st)); [|exact Hrgb].
    rewrite plane_body_paint; [|exact Hne|].
    + unfold resolved_color. rewrite Hnot, Hc. reflexivity.
    + unfold ignored. rewrite Hnot, Hc. simpl. apply String.eqb_neq. exact Hl.
Qed.

(** C9: the mask array held by the locals is the input array after every
    run of the loop and after the whole compositor, and [_mtv] changes no
    field of the display object other than the canvas and the viewer
    image. *)
Theorem mask_unchanged (self : DisplayImpl) (mask : Mask) :
  (forall items st st', plane_loop items st = Ok st' -> maska st' = maska st) /\
  (forall out, composite self mask = Ok out -> maska out = getArray mask) /\
  (forall image wcs,
     let self' :=
       fst (_mtv self image (Some mask) wcs) in
     _maskTransparency self' = _maskTransparency self /\
     _redraw self' = _redraw self /\ stderr self' = stderr self).
Proof.
  split; [|split].
  - intros items st st'. apply plane_loop_maska.
  - intros out H. apply composite_inv in H. destruct H as [st [Hl ->]].
    apply plane_loop_maska in Hl. exact Hl.
  - intros image wcs. unfold _mtv. destruct image as [arr|].
    + destruct (composite _ mask); destruct wcs; simpl; auto.
    + destruct (composite _ mask); simpl; auto.
Qed.

(** ** Further properties of the compositor *)

Lemma plane_body_generator (st st' : Locals) (item : string * nat) :
  plane_body st item = Ok st' ->
  colorGenerator st' =
    (colorGenerator st + fallback_draws (maska st) [item])%nat.
Proof.
  intros Hb. unfold fallback_draws. simpl.
  destruct (gall negb (plane_isSet (maska st) (snd item))) eqn:Hall.
  { rewrite plane_body_empty in Hb by exact Hall. inversion Hb; subst.
    simpl. lia. }
  destruct (ignored (fst item)) eqn:Hig.
  { rewrite plane_body_ignored in Hb by exact Hig. inversion Hb; subst.
    unfold ignored in Hig. apply andb_true_iff in Hig. destruct Hig as [Hn _].
    apply negb_true_iff in Hn. rewrite Hn. simpl. lia. }
  rewrite plane_body_paint in Hb by assumption.
  apply paint_cell in Hb. destruct Hb as [c [_ [_ [Hg _]]]]. rewrite Hg.
  destruct (py_not (getMaskPlaneColor (fst item))); simpl; lia.
Qed.

Lemma fallback_draws_cons (arr : grid Z) (item : string * nat)
  (rest : list (string * nat)) :
  fallback_draws arr (item :: rest) =
    (fallback_draws arr [item] + fallback_draws arr rest)%nat.
Proof.
  unfold fallback_draws. simpl.
  destruct (negb _ && _)%bool; reflexivity.
Qed.

Lemma plane_loop_generator (items : list (string * nat)) (st st' : Locals) :
  plane_loop items st = Ok st' ->
  colorGenerator st' =
    (colorGenerator st + fallback_draws (maska st) items)%nat.
Proof.
  revert st. induction items as [|item rest IH]; intros st Hl.
  - simpl in Hl. inversion Hl; subst. unfold fallback_draws. simpl. lia.
  - rewrite plane_loop_cons in Hl. apply bind_ok in Hl.
    destruct Hl as [st1 [Hb Hl]].
    pose proof (plane_body_generator _ _ _ Hb) as Hg1.
    apply plane_body_cell in Hb. destruct Hb as [Hm _].
    apply IH in Hl. rewrite Hm in Hl.
    rewrite fallback_draws_cons. lia.
Qed.

Lemma composite_self (self1 self2 : DisplayImpl) (mask : Mask) :
  _maskTransparency self1 = _maskTransparency self2 ->
  composite self1 mask = composite self2 mask.
Proof.
  intros H. unfold composite, mask_alpha, _getMaskTransparency.
  rewrite H. reflexivity.
Qed.

(** The pixel at the end of the loop when [item] is the last plane of the
    dictionary that contributes to it. *)
Lemma pixel_after_last_contributor (mask : Mask) (st : Locals)
  (l1 l2 : list (string * nat)) (item : string * nat)
  (c : float * float * float) (i j : nat) (v : Z) :
  getMaskPlaneDict mask = (l1 ++ item :: l2)%list ->
  plane_loop (getMaskPlaneDict mask) (init_locals mask) = Ok st ->
  gget (getArray mask) i j = Some v ->
  contributes v item = true ->
  contributors v l2 = [] ->
  to_rgb (resolved_color (fst item) (fallback_draws (getArray mask) l1)) =
    Some c ->
  exists px,
    gget (maskRGB st) i j = Some px /\
    (pR px, pG px, pB px) = rgb8 c /\
    gget (nSet st) i j =
      Some (Z.of_nat (List.length (contributors v (getMaskPlaneDict mask)))
            mod 256).
Proof.
  intros Hdict Hl Hv Hcon Hl2 Hc.
  pose proof Hl as Hwhole. apply plane_loop_cell in Hwhole.
  destruct Hwhole as [_ Hwhole].
  destruct (init_cell mask i j v Hv) as [Hpx0 Hn0].
  destruct (Hwhole i j v zero_pixel 0 Hv Hpx0 Hn0) as [pxw [Hpxw [Hnw _]]];
    [lia|].
  rewrite Z.add_0_l in Hnw.
  rewrite Hdict, plane_loop_app in Hl. apply bind_ok in Hl.
  destruct Hl as [st1 [H1 Hl]]. rewrite plane_loop_cons in Hl.
  apply bind_ok in Hl. destruct Hl as [st2 [Hb H2]].
  pose proof (plane_loop_generator _ _ _ H1) as Hg. simpl in Hg.
  apply plane_loop_cell in H1. destruct H1 as [Hm1 Hcell1].
  destruct (Hcell1 i j v zero_pixel 0 Hv Hpx0 Hn0) as [px1 [Hpx1 [Hn1 _]]];
    [lia|].
  apply plane_body_cell in Hb. destruct Hb as [Hm2 Hcell2].
  simpl in Hm1. rewrite <- Hm1 in Hv.
  destruct (Hcell2 i j v px1 _ Hv Hpx1 Hn1) as [px2 [Hpx2 [Hn2 Hcol]]].
  rewrite Hcon in Hn2, Hcol. destruct Hcol as [c' [Hc' Hw]].
  rewrite Hg in Hc'. rewrite Hc in Hc'. inversion Hc'; subst c'.
  apply plane_loop_cell in H2. destruct H2 as [_ Hcell3].
  rewrite <- Hm2 in Hv.
  destruct (Hcell3 i j v px2 _ Hv Hpx2 Hn2) as [px3 [Hpx3 [_ [_ [Hsame _]]]]].
  { apply Z.mod_pos_bound. lia. }
  rewrite (Hsame Hl2) in Hpx3. exists px2.
  split; [exact Hpx3|]. split.
  - rewrite Hw. destruct (rgb8 c) as [[r g] b]. reflexivity.
  - rewrite Hpxw in Hpx3. rewrite Hnw, Hdict. reflexivity.
Qed.

(** The position of the fallback generator after the whole compositor: it
    has drawn one colour for each plane that has a pixel in the mask and
    no configured colour, and none for any other plane. *)
Theorem generator_draws_per_uncoloured_plane (self : DisplayImpl) (mask : Mask)
  (out : Locals) :
  composite self mask = Ok out ->
  colorGenerator out =
    fallback_draws (getArray mask) (getMaskPlaneDict mask).
Proof.
  intros H. apply composite_inv in H. destruct H as [st [Hl ->]].
  apply plane_loop_generator in Hl. exact Hl.
Qed.

(** The output image has the dimensions of the mask. *)
Theorem composite_shape (self : DisplayImpl) (mask : Mask) (out : Locals) :
  composite self mask = Ok out ->
  shape (maskRGB out) = repeat (getWidth mask) (getHeight mask).
Proof.
  intros H. apply composite_inv in H. destruct H as [st [Hl ->]].
  assert (Hw : well_shaped (finish (mask_alpha self) st)).
  { apply finish_shape. eapply plane_loop_shape; [exact Hl | apply init_shape]. }
  destruct Hw as [Hrgb _]. rewrite Hrgb.
  apply plane_loop_maska in Hl. simpl in *. rewrite Hl. apply array_shape.
Qed.

Lemma floor_divide_range (a d : Z) :
  0 <= a < 256 -> 1 <= d -> 0 <= floor_divide a d < 256.
Proof.
  intros Ha Hd. unfold floor_divide.
  destruct (d =? 0) eqn:E; [lia|]. split.
  - apply Z.div_pos; lia.
  - apply Z.le_lt_trans with a; [|lia].
    apply Z.div_le_upper_bound; [lia | nia].
Qed.

Lemma finish_pixel_range (alpha : float) (px : Pixel) (n : Z) :
  rgb_in_range px -> 0 <= n < 256 ->
  rgb_in_range (finish_pixel alpha px n) /\
  0 <= pA (finish_pixel alpha px n) < 256.
Proof.
  intros [HR [HG HB]] Hn.
  assert (Hd : 1 <= (if n =? 0 then 1 else n)).
  { destruct (n =? 0) eqn:E; [lia | apply Z.eqb_neq in E; lia]. }
  unfold rgb_in_range, finish_pixel. cbn [pR pG pB pA].
  split; [split; [|split]; apply floor_divide_range; assumption|].
  destruct (n =? 0); [lia | apply uint8_of_float_range].
Qed.

(** Every channel of every pixel of the output is a byte. *)
Theorem output_bytes (self : DisplayImpl) (mask : Mask) (out : Locals)
  (i j : nat) (px : Pixel) :
  composite self mask = Ok out ->
  gget (maskRGB out) i j = Some px ->
  0 <= pR px < 256 /\ 0 <= pG px < 256 /\ 0 <= pB px < 256 /\
  0 <= pA px < 256.
Proof.
  intros H Hpx. apply composite_inv in H. destruct H as [st [Hl ->]].
  destruct (output_cell_has_mask mask st _ i j px Hl Hpx) as [v Hv].
  apply plane_loop_cell in Hl. destruct Hl as [_ Hcell].
  destruct (init_cell mask i j v Hv) as [Hpx0 Hn0].
  destruct (Hcell i j v zero_pixel 0 Hv Hpx0 Hn0) as [px1 [Hpx1 [Hn1 [_ [_ Hr]]]]];
    [lia|].
  rewrite (finish_cell _ st i j px1 _ Hpx1 Hn1) in Hpx.
  injection Hpx as Hpx. subst px.
  assert (Hr1 : rgb_in_range px1).
  { apply Hr. unfold rgb_in_range, zero_pixel. simpl. lia. }
  destruct (finish_pixel_range (mask_alpha self) px1 _ Hr1
              (Z.mod_pos_bound
                 (0 + Z.of_nat (List.length (contributors v (getMaskPlaneDict mask))))
                 256 eq_refl)) as [[HR [HG HB]] HA].
  auto.
Qed.

(** What the code stores where planes overlap: the pixel carries the
    colour of the last plane of the dictionary that contributes to it, each
    channel divided by the number of contributing planes. *)
Theorem last_plane_wins (self : DisplayImpl) (mask : Mask) (out : Locals)
  (l1 l2 : list (string * nat)) (item : string * nat)
  (c : float * float * float) (i j : nat) (v : Z) :
  getMaskPlaneDict mask = (l1 ++ item :: l2)%list ->
  (List.length (getMaskPlaneDict mask) < 256)%nat ->
  composite self mask = Ok out ->
  gget (getArray mask) i j = Some v ->
  contributes v item = true ->
  contributors v l2 = [] ->
  to_rgb (resolved_color (fst item) (fallback_draws (getArray mask) l1)) =
    Some c ->
  exists px,
    gget (maskRGB out) i j = Some px /\
    let count :=
      Z.of_nat (List.length (contributors v (getMaskPlaneDict mask))) in
    let '(r, g, b) := rgb8 c in
    1 <= count /\
    px = mkPixel (r / count) (g / count) (b / count)
           (uint8_of_float (255 * (1 - mask_alpha self))).
Proof.
  intros Hdict Hlen H Hv Hcon Hl2 Hc.
  apply composite_inv in H. destruct H as [st [Hl ->]].
  destruct (pixel_after_last_contributor mask st l1 l2 item c i j v
              Hdict Hl Hv Hcon Hl2 Hc) as [px [Hpx [Hrgb Hn]]].
  assert (Hcount : 1 <= Z.of_nat
            (List.length (contributors v (getMaskPlaneDict mask))) < 256).
  { pose proof (contributors_length v (getMaskPlaneDict mask)) as Hle.
    assert (Hge : (1 <= List.length (contributors v (getMaskPlaneDict mask)))%nat).
    { rewrite Hdict. unfold contributors. rewrite filter_app, length_app.
      simpl. rewrite Hcon. simpl. lia. }
    lia. }
  rewrite Z.mod_small in Hn by lia.
  eexists. split; [eapply finish_cell; eauto|].
  cbv zeta. destruct (rgb8 c) as [[r g] b]. split; [lia|].
  inversion Hrgb. unfold finish_pixel, floor_divide.
  destruct (Z.of_nat _ =? 0) eqn:E; [apply Z.eqb_eq in E; lia|].
  rewrite E. reflexivity.
Qed.

(** A pixel to which exactly one plane contributes carries that plane's
    colour bytes unchanged, with the global alpha byte. *)
Theorem single_contributor_pixel (self : DisplayImpl) (mask : Mask)
  (out : Locals) (l1 l2 : list (string * nat)) (item : string * nat)
  (c : float * float * float) (i j : nat) (v : Z) :
  getMaskPlaneDict mask = (l1 ++ item :: l2)%list ->
  composite self mask = Ok out ->
  gget (getArray mask) i j = Some v ->
  contributors v l1 = [] ->
  contributes v item = true ->
  contributors v l2 = [] ->
  to_rgb (resolved_color (fst item) (fallback_draws (getArray mask) l1)) =
    Some c ->
  gget (maskRGB out) i j =
    Some (with_rgb (rgb8 c)
            (mkPixel 0 0 0 (uint8_of_float (255 * (1 - mask_alpha self))))).
Proof.
  intros Hdict H Hv Hl1 Hcon Hl2 Hc.
  apply composite_inv in H. destruct H as [st [Hl ->]].
  destruct (pixel_after_last_contributor mask st l1 l2 item c i j v
              Hdict Hl Hv Hcon Hl2 Hc) as [px [Hpx [Hrgb Hn]]].
  assert (Hone : List.length (contributors v (getMaskPlaneDict mask)) = 1%nat).
  { rewrite Hdict. unfold contributors in *. rewrite filter_app. simpl.
    rewrite Hl1, Hcon, Hl2. reflexivity. }
  rewrite Hone in Hn. change (Z.of_nat 1 mod 256) with 1 in Hn.
  rewrite (finish_cell _ st i j px 1 Hpx Hn).
  destruct (rgb8 c) as [[r g] b]. inversion Hrgb.
  unfold finish_pixel, floor_divide. simpl. rewrite !Z.div_1_r. reflexivity.
Qed.


(** A colour that [to_rgb] rejects on a plane that is painted makes the
    compositor raise the [ValueError] of [to_rgb], and [_mtv] then ends
    with that exception and an empty canvas. *)
Theorem invalid_color_raises (self : DisplayImpl) (mask : Mask)
  (l1 l2 : list (string * nat)) (item : string * nat) (st1 : Locals)
  (image : option (grid float)) (wcs : option Wcs) :
  getMaskPlaneDict mask = (l1 ++ item :: l2)%list ->
  plane_loop l1 (init_locals mask) = Ok st1 ->
  gall negb (plane_isSet (getArray mask) (snd item)) = false ->
  ignored (fst item) = false ->
  to_rgb (resolved_color (fst item) (colorGenerator st1)) = None ->
  exists msg,
    composite self mask = Raise (ValueError msg) /\
    snd (_mtv self image (Some mask) wcs) = Some (ValueError msg) /\
    _canvas (fst (_mtv self image (Some mask) wcs)) = [].
Proof.
  intros Hdict H1 Hne Hig Hc.
  exists (resolved_color (fst item) (colorGenerator st1)).
  assert (Hloop : plane_loop (getMaskPlaneDict mask) (init_locals mask) =
                  Raise (ValueError (resolved_color (fst item) (colorGenerator st1)))).
  { rewrite Hdict, plane_loop_app, H1. cbn [bind]. rewrite plane_loop_cons.
    pose proof (plane_loop_maska _ _ _ H1) as Hm. simpl in Hm.
    rewrite plane_body_paint; [|rewrite Hm; exact Hne|exact Hig].
    unfold paint. rewrite Hc. reflexivity. }
  assert (Hcomp : forall self', composite self' mask =
            Raise (ValueError (resolved_color (fst item) (colorGenerator st1)))).
  { intros self'. unfold composite. rewrite Hloop. reflexivity. }
  split; [apply Hcomp|].
  unfold _mtv. rewrite Hcomp. destruct image, wcs; simpl; auto.
Qed.

(** [_mtv] with a mask replaces whatever was on the canvas by the one
    composite image at (0, 0); it installs the image it is given, with the
    adapted WCS if there is one, and keeps the viewer's image when it is
    given none. *)
Theorem mtv_replaces_canvas (self : DisplayImpl) (mask : Mask) (out : Locals)
  (image : option (grid float)) (wcs : option Wcs) :
  composite self mask = Ok out ->
  snd (_mtv self image (Some mask) wcs) = None /\
  _canvas (fst (_mtv self image (Some mask) wcs)) = [Image 0 0 (maskRGB out)] /\
  _viewer_image (fst (_mtv self image (Some mask) wcs)) =
    match image with
    | Some arr => Some (mkAstroImage arr (option_map mkWcsAdaptor wcs))
    | None => _viewer_image self
    end.
Proof.
  intros H. unfold _mtv.
  destruct image as [arr|].
  - rewrite (composite_self _ self mask) by (destruct wcs; reflexivity).
    rewrite H. destruct wcs; simpl; auto.
  - rewrite (composite_self _ self mask) by reflexivity.
    rewrite H. simpl. auto.
Qed.

(** With the display's own getter returning nothing, the transparency set
    by [_setMaskTransparency(t, None)] is the one the next composite uses:
    a pixel with a contributing plane gets the alpha byte of
    [255 * (1 - 0.01 * t)]. *)
Theorem set_transparency_then_composite (self : DisplayImpl) (t : float)
  (mask : Mask) (out : Locals) (i j : nat) (v : Z) :
  display_getMaskTransparency = None ->
  (List.length (getMaskPlaneDict mask) < 256)%nat ->
  composite (fst (_setMaskTransparency self t None)) mask = Ok out ->
  gget (getArray mask) i j = Some v ->
  existsb (contributes v) (getMaskPlaneDict mask) = true ->
  exists px,
    gget (maskRGB out) i j = Some px /\
    pA px = uint8_of_float (255 * (1 - 0.01 * t)).
Proof.
  intros Hd Hlen H Hv Hex.
  apply composite_inv in H. destruct H as [st [Hl ->]].
  destruct (loop_cell_from_init mask st i j v Hl Hlen Hv) as [px [Hpx [Hn _]]].
  eexists. split; [eapply finish_cell; eauto|].
  rewrite existsb_contributors in Hex. apply negb_true_iff in Hex.
  unfold finish_pixel. simpl. rewrite Hex.
  unfold mask_alpha. rewrite Hd. reflexivity.
Qed.

End Compositor.

(** ** Drawing symbols *)

Section DotFacts.

Variable ds9Regions_dot : string -> float -> float -> float -> list string.
Variable py_float : string -> option float.

Lemma dot_loop_app (self : DisplayImpl) (symb ctype : string)
  (pre cmds : list string) :
  dot_loop py_float self symb ctype (pre ++ cmds) =
  match dot_loop py_float self symb ctype pre with
  | (self1, None) => dot_loop py_float self1 symb ctype cmds
  | (self1, Some e) => (self1, Some e)
  end.
Proof.
  revert self. induction pre as [|cmd pre IH]; intros self; simpl; [reflexivity|].
  destruct (dot_command py_float self symb ctype cmd) as [self' [e|]];
    [reflexivity | apply IH].
Qed.

Lemma dot_command_unknown (self : DisplayImpl) (symb ctype ds9Cmd w : string)
  (args : list string) :
  command_words ds9Cmd = w :: args -> w <> "line" -> w <> "text" ->
  dot_command py_float self symb ctype ds9Cmd =
    (self, Some (RuntimeError ds9Cmd)).
Proof.
  intros Hw Hline Htext. unfold dot_command. rewrite Hw.
  apply String.eqb_neq in Hline. apply String.eqb_neq in Htext.
  rewrite Hline, Htext. reflexivity.
Qed.

(** C8: in [_dot], a region command whose command word is neither "line"
    nor "text" raises [RuntimeError] with the text of the command, and the
    commands after it are not processed; a "line" command with four numeric
    arguments and a "text" command with two leading numeric arguments each
    add one drawing object and raise nothing. *)
Theorem unknown_command_raises :
  (forall self symb c r size ctype pre ds9Cmd post self1 w args,
     symb <> "o" ->
     ds9Regions_dot symb c r size = (pre ++ ds9Cmd :: post)%list ->
     dot_loop py_float self symb ctype pre = (self1, None) ->
     command_words ds9Cmd = w :: args -> w <> "line" -> w <> "text" ->
     _dot ds9Regions_dot py_float self (SymbStr symb) c r size ctype =
       (self1, Some (RuntimeError ds9Cmd))) /\
  (forall self symb ctype ds9Cmd a1 a2 a3 a4 x1 y1 x2 y2,
     command_words ds9Cmd = ["line"; a1; a2; a3; a4] ->
     py_float a1 = Some x1 -> py_float a2 = Some y1 ->
     py_float a3 = Some x2 -> py_float a4 = Some y2 ->
     dot_command py_float self symb ctype ds9Cmd =
       (canvas_add (Line (x1 - 1) (y1 - 1) (x2 - 1) (y2 - 1) ctype) self,
        None)) /\
  (forall self symb ctype ds9Cmd a1 a2 more x y,
     command_words ds9Cmd = "text" :: a1 :: a2 :: more ->
     py_float a1 = Some x -> py_float a2 = Some y ->
     dot_command py_float self symb ctype ds9Cmd =
       (canvas_add (Text (x - 1) (y - 1) symb ctype) self, None)).
Proof.
  split; [|split].
  - intros self symb c r size ctype pre ds9Cmd post self1 w args
      Ho Hcmds Hpre Hw Hline Htext.
    unfold _dot. apply String.eqb_neq in Ho. rewrite Ho, Hcmds.
    rewrite dot_loop_app, Hpre. simpl.
    rewrite (dot_command_unknown self1 symb ctype ds9Cmd w args Hw Hline Htext).
    reflexivity.
  - intros self symb ctype ds9Cmd a1 a2 a3 a4 x1 y1 x2 y2 Hw H1 H2 H3 H4.
    unfold dot_command. rewrite Hw. simpl. rewrite H1, H2, H3, H4. reflexivity.
  - intros self symb ctype ds9Cmd a1 a2 more x y Hw H1 H2.
    unfold dot_command. rewrite Hw. simpl. rewrite H1, H2. reflexivity.
Qed.

End DotFacts.

(** ** Mask transparency *)

(** C10, on the code: with a mask plane given, building the message raises
    [TypeError] before anything is printed; the display object, and with
    it the stored transparency, is as before the call. *)
Theorem setMaskTransparency_maskplane_raises (self : DisplayImpl)
  (transparency : float) (maskplane : string) :
  _setMaskTransparency self transparency (Some maskplane) =
    (self,
     Some (TypeError "not all arguments converted during string formatting")).
Proof. reflexivity. Qed.

Lemma setMaskTransparency_stores (self : DisplayImpl) (transparency : float) :
  _getMaskTransparency (fst (_setMaskTransparency self transparency None)) =
    (0.01 * transparency)%float.
Proof. reflexivity. Qed.

Lemma stored_fraction_35 :
  PrimFloat.eqb
    (_getMaskTransparency (fst (_setMaskTransparency demo_self 35 None)))
    (35 / 100)%float = false.
Proof. vm_compute. reflexivity. Qed.

(** ** The compositor on concrete masks *)

Lemma demo_generator_converts (k : nat) :
  demo_to_rgb (demo_generator k) <> None.
Proof.
  unfold demo_generator.
  assert (H : (k mod 7 < 7)%nat) by (apply Nat.mod_upper_bound; lia).
  destruct (k mod 7)%nat as [|[|[|[|[|[|[|n]]]]]]]; simpl;
    try discriminate. lia.
Qed.

Lemma demo_colors_convert (items : list (string * nat)) :
  colors_convert red_lime demo_generator demo_to_rgb items.
Proof.
  split; [apply demo_generator_converts|].
  intros [name num] _. simpl. unfold red_lime.
  destruct (String.eqb name "BAD"); [discriminate|].
  destruct (String.eqb name "SAT"); discriminate.
Qed.

(** C1, on the code: two planes, red and lime, that overlap on a pixel
    give (0, 127, 0) there: the colour stored last, divided by the count of
    2, and not the average (127, 127, 0). *)
Theorem overlapping_planes_overwrite :
  out_pixels
    (composite red_lime demo_generator demo_to_rgb None demo_self
       (mask_1x1 3 [("BAD", 0%nat); ("SAT", 1%nat)])) =
  [[mkPixel 0 127 0 50]].
Proof. vm_compute. reflexivity. Qed.

(** C2, on the code: with explicit colours for both planes, the two
    iteration orders of the plane dictionary give different images. *)
Theorem iteration_order_changes_output :
  out_pixels
    (composite red_lime demo_generator demo_to_rgb None demo_self
       (mask_1x1 3 [("BAD", 0%nat); ("SAT", 1%nat)])) = [[mkPixel 0 127 0 50]] /\
  out_pixels
    (composite red_lime demo_generator demo_to_rgb None demo_self
       (mask_1x1 3 [("SAT", 1%nat); ("BAD", 0%nat)])) = [[mkPixel 127 0 0 50]].
Proof. split; vm_compute; reflexivity. Qed.

(** ** The theorems at concrete inputs *)

Lemma alpha_channel_witness :
  exists out,
    composite red_lime demo_generator demo_to_rgb None demo_self
      (mask_1x1 3 [("BAD", 0%nat); ("SAT", 1%nat)]) = Ok out /\
    exists px, gget (maskRGB out) 0 0 = Some px /\ pA px = 50.
Proof.
  destruct (alpha_channel red_lime demo_generator demo_to_rgb None demo_self
              (mask_1x1 3 [("BAD", 0%nat); ("SAT", 1%nat)])
              (demo_colors_convert _)) as [out [Hc [Hcell _]]].
  - simpl. lia.
  - exists out. split; [exact Hc|].
    destruct (Hcell 0%nat 0%nat 3 eq_refl) as [px [Hpx Ha]].
    exists px. split; [exact Hpx|]. rewrite Ha. vm_compute. reflexivity.
Defined.

Lemma normalization_safe_witness :
  exists out,
    composite red_lime demo_generator demo_to_rgb None demo_self
      (mask_1x1 3 [("BAD", 0%nat); ("SAT", 1%nat)]) = Ok out /\
    gall (fun n => negb (n =? 0)) (nSet out) = true.
Proof.
  destruct (normalization_safe red_lime demo_generator demo_to_rgb None
              demo_self (mask_1x1 3 [("BAD", 0%nat); ("SAT", 1%nat)])
              (demo_colors_convert _)) as [st [out [_ [Hc [Hnz _]]]]].
  - simpl. lia.
  - exists out. split; assumption.
Defined.

Lemma single_plane_color_witness :
  exists out,
    composite red_lime demo_generator demo_to_rgb None demo_self
      (mask_1x1 1 [("BAD", 0%nat); ("SAT", 1%nat)]) = Ok out /\
    gget (maskRGB out) 0 0 = Some (mkPixel 255 0 0 50).
Proof.
  destruct (single_plane_color red_lime demo_generator demo_to_rgb None
              demo_self (mask_1x1 1 [("BAD", 0%nat); ("SAT", 1%nat)])
              [] [("SAT", 1%nat)] "BAD" 0%nat (1, 0, 0)%float)
    as [out [Hc Hcell]].
  - reflexivity.
  - constructor; [reflexivity | constructor].
  - reflexivity.
  - reflexivity.
  - reflexivity.
  - exists out. split; [exact Hc|].
    rewrite (Hcell 0%nat 0%nat 1 eq_refl). vm_compute. reflexivity.
Defined.

Lemma empty_plane_skipped_witness :
  plane_body red_lime demo_generator demo_to_rgb
    (init_locals (mask_1x1 1 [("BAD", 0%nat); ("SAT", 1%nat)]))
    ("SAT", 1%nat) =
  Ok (init_locals (mask_1x1 1 [("BAD", 0%nat); ("SAT", 1%nat)])).
Proof.
  apply (empty_plane_skipped red_lime demo_generator demo_to_rgb
           (init_locals (mask_1x1 1 [("BAD", 0%nat); ("SAT", 1%nat)]))
           ("SAT", 1%nat)).
  reflexivity.
Defined.

Lemma ignore_skips_plane_witness :
  let st := init_locals (mask_1x1 7 [("BAD", 0%nat); ("SAT", 1%nat); ("CR", 2%nat)]) in
  plane_body ignore_lime demo_generator demo_to_rgb st ("BAD", 0%nat) = Ok st /\
  (exists st',
     plane_body ignore_lime demo_generator demo_to_rgb st ("CR", 2%nat) = Ok st' /\
     colorGenerator st' = 1%nat /\
     gget (maskRGB st') 0 0 = Some (mkPixel 255 0 0 0) /\
     gget (nSet st') 0 0 = Some 1) /\
  (exists st',
     plane_body ignore_lime demo_generator demo_to_rgb st ("SAT", 1%nat) = Ok st' /\
     colorGenerator st' = 0%nat /\
     gget (maskRGB st') 0 0 = Some (mkPixel 0 255 0 0) /\
     gget (nSet st') 0 0 = Some 1).
Proof.
  intros st.
  destruct (ignore_skips_plane ignore_lime demo_generator demo_to_rgb)
    as [Hignore [Hnone Hcolor]].
  split; [|split].
  - apply (Hignore st ("BAD", 0%nat) "IGNORE"); reflexivity.
  - destruct (Hnone st ("CR", 2%nat) (1, 0, 0)%float eq_refl eq_refl eq_refl)
      as [st' [Hb [Hg [_ Hcell]]]].
    destruct (Hcell 0%nat 0%nat 7 zero_pixel 0 eq_refl eq_refl eq_refl)
      as [Hpx Hn].
    exists st'. split; [exact Hb|]. split; [exact Hg|].
    split; [rewrite Hpx | rewrite Hn]; vm_compute; reflexivity.
  - destruct (Hcolor st ("SAT", 1%nat) "lime" (0, 1, 0)%float eq_refl eq_refl)
      as [st' [Hb [Hg [_ Hcell]]]]; try discriminate; try reflexivity.
    destruct (Hcell 0%nat 0%nat 7 zero_pixel 0 eq_refl eq_refl eq_refl)
      as [Hpx Hn].
    exists st'. split; [exact Hb|]. split; [exact Hg|].
    split; [rewrite Hpx | rewrite Hn]; vm_compute; reflexivity.
Defined.

Lemma mask_unchanged_witness :
  match composite red_lime demo_generator demo_to_rgb None demo_self
          (mask_1x1 3 [("BAD", 0%nat); ("SAT", 1%nat)]) with
  | Ok out => maska out = [[3]]
  | Raise _ => False
  end.
Proof.
  destruct (composite red_lime demo_generator demo_to_rgb None demo_self
              (mask_1x1 3 [("BAD", 0%nat); ("SAT", 1%nat)])) as [out|e] eqn:E.
  - exact (proj1 (proj2 (mask_unchanged red_lime demo_generator demo_to_rgb
                           None demo_self
                           (mask_1x1 3 [("BAD", 0%nat); ("SAT", 1%nat)])))
             out E).
  - vm_compute in E. discriminate.
Defined.

Lemma unknown_command_raises_witness :
  _dot demo_regions demo_float demo_self (SymbStr "@:1,0,1") 10 20 2 "red" =
    (canvas_add (Line 10 21 10 17 "red") demo_self,
     Some (RuntimeError "ellipse 11 20 1i 1i 0 # color=red")) /\
  dot_command demo_float demo_self "+" "red" "line 9 20 13 20 # color=red" =
    (canvas_add (Line (9 - 1) (20 - 1) (13 - 1) (20 - 1) "red") demo_self, None) /\
  dot_command demo_float demo_self "hello" "red" "text 11 20 # color=red" =
    (canvas_add (Text (11 - 1) (20 - 1) "hello" "red") demo_self, None).
Proof.
  destruct (unknown_command_raises demo_regions demo_float)
    as [Hraise [Hline Htext]].
  split; [|split].
  - apply (Hraise demo_self "@:1,0,1" 10%float 20%float 2%float "red"
             ["line 11 22 11 18"] "ellipse 11 20 1i 1i 0 # color=red"
             ["line 9 20 13 20"] (canvas_add (Line 10 21 10 17 "red") demo_self)
             "ellipse" ["11"; "20"; "1i"; "1i"; "0"]);
      try reflexivity; discriminate.
  - apply (Hline demo_self "+" "red" "line 9 20 13 20 # color=red"
             "9" "20" "13" "20"); reflexivity.
  - apply (Htext demo_self "hello" "red" "text 11 20 # color=red"
             "11" "20" []); reflexivity.
Defined.

(** * Further properties *)

(** ** The membership test *)

(** For a pixel type of [w] bits with a sign bit, a mask value [v] that is
    not negative and a plane number [n] below the sign bit, so that
    [1 << n] is a value of the pixel type, [maska & (1 << n) != 0] holds
    exactly where bit [n] of [v] is set. *)
Theorem bit_set_testbit (w : nat) (v : Z) (n : nat) :
  0 <= v < 2 ^ (Z.of_nat w - 1) ->
  (n < w - 1)%nat ->
  bit_set v n = Z.testbit v (Z.of_nat n).
Proof.
  intros _ _. unfold bit_set. rewrite Z.shiftl_1_l.
  destruct (Z.testbit v (Z.of_nat n)) eqn:Hb.
  - apply negb_true_iff, Z.eqb_neq. intros H0.
    assert (Hl : Z.testbit (Z.land v (2 ^ Z.of_nat n)) (Z.of_nat n) = true).
    { rewrite Z.land_spec, Hb, Z.pow2_bits_true by lia. reflexivity. }
    rewrite H0, Z.bits_0 in Hl. discriminate.
  - apply negb_false_iff, Z.eqb_eq. apply Z.bits_inj'. intros m Hm.
    rewrite Z.land_spec, Z.bits_0, Z.pow2_bits_eqb by lia.
    destruct (Z.eqb_spec (Z.of_nat n) m) as [<-|_].
    + rewrite Hb. reflexivity.
    + apply andb_false_r.
Qed.

(** ** Drawing lines *)

Lemma set_canvas_self (self : DisplayImpl) :
  set_canvas (_canvas self ++ []) self = self.
Proof. destruct self. unfold set_canvas. simpl. rewrite app_nil_r. reflexivity. Qed.

Lemma drawLines_loop_spec (ctype : string) (rest : list (float * float))
  (self : DisplayImpl) (p0 : float * float) :
  drawLines_loop self p0 rest ctype =
    set_canvas
      (_canvas self ++
       zipWith (fun a b => Line (fst a) (snd a) (fst b) (snd b) ctype)
         (p0 :: rest) rest)
      self.
Proof.
  revert self p0. induction rest as [|p rest IH]; intros self p0.
  - simpl. symmetry. apply set_canvas_self.
  - cbn [drawLines_loop]. rewrite IH. unfold canvas_add, set_canvas. simpl.
    rewrite <- app_assoc. reflexivity.
Qed.

(** [_drawLines] on an empty list raises [IndexError] and draws nothing; on
    [n + 1] points it appends [n] lines to the canvas, the k-th from point
    [k] to point [k + 1], in order, and raises nothing. *)
Theorem drawLines_segments (self : DisplayImpl) (ctype : string) :
  _drawLines self [] ctype =
    (self, Some (IndexError "list index out of range")) /\
  forall p0 rest,
    _drawLines self (p0 :: rest) ctype =
      (set_canvas
         (_canvas self ++
          zipWith (fun a b => Line (fst a) (snd a) (fst b) (snd b) ctype)
            (p0 :: rest) rest)
         self,
       None) /\
    List.length (_canvas (fst (_drawLines self (p0 :: rest) ctype))) =
      (List.length (_canvas self) + List.length rest)%nat.
Proof.
  split; [reflexivity|]. intros p0 rest.
  unfold _drawLines. rewrite drawLines_loop_spec. split; [reflexivity|].
  simpl. rewrite length_app. f_equal.
  generalize p0. induction rest as [|p rest IH]; intros q; simpl;
    [reflexivity | f_equal; apply IH].
Qed.

(** ** Region commands *)

Lemma split_char_nonempty (c : ascii) (s : string) : split_char c s <> [].
Proof.
  destruct s as [|d rest]; simpl; [discriminate|].
  destruct (Ascii.eqb d c); [discriminate|].
  destruct (split_char c rest); discriminate.
Qed.

Lemma hd_split_char_comment (c : ascii) (s t : string) :
  has_char c s = false ->
  hd EmptyString (split_char c (s ++ String c t)) = s.
Proof.
  induction s as [|d s IH]; simpl; intros H.
  - rewrite Ascii.eqb_refl. reflexivity.
  - apply orb_false_iff in H. destruct H as [Hd Hs]. rewrite Hd.
    specialize (IH Hs).
    destruct (split_char c (s ++ String c t)) as [|w ws] eqn:E.
    + exfalso. exact (split_char_nonempty _ _ E).
    + simpl in *. rewrite IH. reflexivity.
Qed.

Lemma hd_split_char_plain (c : ascii) (s : string) :
  has_char c s = false -> hd EmptyString (split_char c s) = s.
Proof.
  induction s as [|d s IH]; simpl; intros H; [reflexivity|].
  apply orb_false_iff in H. destruct H as [Hd Hs]. rewrite Hd.
  specialize (IH Hs).
  destruct (split_char c s) as [|w ws] eqn:E.
  - exfalso. exact (split_char_nonempty _ _ E).
  - simpl in *. rewrite IH. reflexivity.
Qed.

Section DotMore.

Variable ds9Regions_dot : string -> float -> float -> float -> list string.
Variable py_float : string -> option float.

(** Whatever follows the first [#] of a region command is ignored: the
    command word and its arguments are the words before it, and the display
    object is left as by the command without the comment. *)
Theorem comment_ignored (s t : string) :
  has_char "#" s = false ->
  command_words (s ++ String "#" t) = py_split s /\
  forall self symb ctype,
    fst (dot_command py_float self symb ctype (s ++ String "#" t)) =
    fst (dot_command py_float self symb ctype s).
Proof.
  intros H.
  assert (H1 : command_words (s ++ String "#" t) = py_split s).
  { unfold command_words. rewrite hd_split_char_comment by exact H. reflexivity. }
  assert (H2 : command_words s = py_split s).
  { unfold command_words. rewrite hd_split_char_plain by exact H. reflexivity. }
  split; [exact H1|]. intros self symb ctype.
  unfold dot_command. rewrite H1, H2.
  destruct (py_split s) as [|cmd0 args]; [reflexivity|].
  destruct (String.eqb cmd0 "line").
  - destruct (floats_minus_1 py_float args) as [[|? [|? [|? [|? [|? ?]]]]]|];
      reflexivity.
  - destruct (String.eqb cmd0 "text"); [|reflexivity].
    destruct (floats_minus_1 py_float (firstn 2 args)) as [[|? [|? [|? ?]]]|];
      reflexivity.
Qed.

(** A region command with no word before its comment raises [IndexError],
    not [RuntimeError], and draws nothing. *)
Theorem comment_only_command (self : DisplayImpl) (symb ctype s t : string) :
  has_char "#" s = false ->
  py_split s = [] ->
  dot_command py_float self symb ctype (s ++ String "#" t) =
    (self, Some (IndexError "list index out of range")).
Proof.
  intros H Hs. unfold dot_command, command_words.
  rewrite hd_split_char_comment by exact H. rewrite Hs. reflexivity.
Qed.

Lemma floats_minus_1_ok (args : list string) :
  Forall (fun p => py_float p <> None) args ->
  exists fs,
    floats_minus_1 py_float args = Ok fs /\
    List.length fs = List.length args.
Proof.
  induction 1 as [|p rest Hp _ [fs [IH Hlen]]]; simpl.
  - exists []. auto.
  - destruct (py_float p) as [f|]; [|congruence].
    rewrite IH. simpl. eexists. split; [reflexivity|]. simpl. congruence.
Qed.

Lemma floats_minus_1_fail (args : list string) :
  Exists (fun p => py_float p = None) args ->
  exists p,
    In p args /\ py_float p = None /\
    floats_minus_1 py_float args =
      Raise (ValueError ("could not convert string to float: " ++ p)).
Proof.
  induction args as [|q rest IH]; intros H; [inversion H|].
  simpl. destruct (py_float q) as [f|] eqn:Hq.
  - inversion H as [? ? Hq'|? ? Hrest]; subst; [congruence|].
    destruct (IH Hrest) as [p [Hin [Hp Hr]]].
    exists p. rewrite Hr. simpl. auto.
  - exists q. auto.
Qed.

(** A "line" command raises [ValueError] if one of its arguments is not a
    number and [TypeError] if the arguments are numbers but not four of
    them; in both cases nothing is drawn. *)
Theorem line_command_errors (self : DisplayImpl) (symb ctype ds9Cmd : string)
  (args : list string) :
  command_words ds9Cmd = "line" :: args ->
  (Exists (fun p => py_float p = None) args ->
   exists msg,
     dot_command py_float self symb ctype ds9Cmd =
       (self, Some (ValueError msg))) /\
  (Forall (fun p => py_float p <> None) args ->
   List.length args <> 4%nat ->
   exists msg,
     dot_command py_float self symb ctype ds9Cmd =
       (self, Some (TypeError msg))).
Proof.
  intros Hw. unfold dot_command. rewrite Hw. simpl. split.
  - intros H. destruct (floats_minus_1_fail args H) as [p [_ [_ Hr]]].
    rewrite Hr. eauto.
  - intros H Hlen. destruct (floats_minus_1_ok args H) as [fs [Hr Hfs]].
    rewrite Hr. rewrite <- Hfs in Hlen.
    destruct fs as [|? [|? [|? [|? [|? ?]]]]]; simpl in Hlen; eauto.
    congruence.
Qed.

Lemma dot_command_appends (self : DisplayImpl) (symb ctype ds9Cmd : string) :
  exists objs,
    fst (dot_command py_float self symb ctype ds9Cmd) =
      set_canvas (_canvas self ++ objs) self /\
    (List.length objs <= 1)%nat /\
    (snd (dot_command py_float self symb ctype ds9Cmd) = None ->
     List.length objs = 1%nat).
Proof.
  unfold dot_command.
  destruct (command_words ds9Cmd) as [|cmd0 args].
  { exists []. rewrite set_canvas_self. simpl. repeat split; auto; discriminate. }
  destruct (String.eqb cmd0 "line").
  { destruct (floats_minus_1 py_float args) as [[|? [|? [|? [|? [|? ?]]]]]|];
      try (exists []; rewrite set_canvas_self; simpl;
           split; [reflexivity | split; [lia | discriminate]]).
    eexists [_]. simpl. split; [reflexivity | split; [lia | reflexivity]]. }
  destruct (String.eqb cmd0 "text").
  { destruct (floats_minus_1 py_float (firstn 2 args)) as [[|? [|? [|? ?]]]|];
      try (exists []; rewrite set_canvas_self; simpl;
           split; [reflexivity | split; [lia | discriminate]]).
    eexists [_]. simpl. split; [reflexivity | split; [lia | reflexivity]]. }
  exists []. rewrite set_canvas_self. simpl.
  split; [reflexivity | split; [lia | discriminate]].
Qed.

Lemma dot_loop_appends (symb ctype : string) (cmds : list string)
  (self : DisplayImpl) :
  exists objs,
    fst (dot_loop py_float self symb ctype cmds) =
      set_canvas (_canvas self ++ objs) self /\
    (List.length objs <= List.length cmds)%nat /\
    (snd (dot_loop py_float self symb ctype cmds) = None ->
     List.length objs = List.length cmds).
Proof.
  revert self. induction cmds as [|cmd rest IH]; intros self.
  { exists []. rewrite set_canvas_self. simpl. auto. }
  destruct (dot_command_appends self symb ctype cmd) as [o1 [H1 [L1 N1]]].
  simpl. destruct (dot_command py_float self symb ctype cmd) as [self' [e|]].
  - exists o1. simpl in *. split; [exact H1|]. split; [lia | discriminate].
  - simpl in H1. subst self'. specialize (N1 eq_refl).
    destruct (IH (set_canvas (_canvas self ++ o1) self)) as [o2 [H2 [L2 N2]]].
    exists (o1 ++ o2)%list. rewrite H2. unfold set_canvas. simpl.
    rewrite app_assoc, length_app. split; [reflexivity|].
    split; [lia|]. intros Hn. specialize (N2 Hn). lia.
Qed.

(** [_dot] only appends to the canvas, also when it raises: the objects
    already there stay, in order, and no other field of the display object
    changes. A string symbol other than "o" adds at most one object for
    each region command, and exactly one for each if nothing is raised; a
    circle or an ellipse adds exactly one. *)
Theorem dot_appends (self : DisplayImpl) (symb : Symbol) (c r size : float)
  (ctype : string) :
  exists objs,
    fst (_dot ds9Regions_dot py_float self symb c r size ctype) =
      set_canvas (_canvas self ++ objs) self /\
    match symb with
    | BaseCore _ _ _ => List.length objs = 1%nat
    | SymbStr s =>
        if String.eqb s "o" then List.length objs = 1%nat
        else
          (List.length objs <= List.length (ds9Regions_dot s c r size))%nat /\
          (snd (_dot ds9Regions_dot py_float self symb c r size ctype) = None ->
           List.length objs = List.length (ds9Regions_dot s c r size))
    end.
Proof.
  destruct symb as [a b theta|s]; simpl.
  - eexists [_]. split; reflexivity.
  - destruct (String.eqb s "o").
    + eexists [_]. split; reflexivity.
    + apply dot_loop_appends.
Qed.

End DotMore.

(** ** The further properties at concrete inputs *)

Lemma generator_draws_per_uncoloured_plane_witness :
  match composite red_lime demo_generator demo_to_rgb None demo_self
          (mask_1x1 7 [("BAD", 0%nat); ("CR", 2%nat); ("SAT", 1%nat)]) with
  | Ok out => colorGenerator out = 1%nat
  | Raise _ => False
  end.
Proof.
  destruct (composite red_lime demo_generator demo_to_rgb None demo_self
              (mask_1x1 7 [("BAD", 0%nat); ("CR", 2%nat); ("SAT", 1%nat)]))
    as [out|e] eqn:E.
  - rewrite (generator_draws_per_uncoloured_plane red_lime demo_generator
               demo_to_rgb None demo_self _ out E).
    reflexivity.
  - vm_compute in E. discriminate.
Defined.

Lemma composite_shape_witness :
  match composite red_lime demo_generator demo_to_rgb None demo_self
          (mask_1x1 3 [("BAD", 0%nat); ("SAT", 1%nat)]) with
  | Ok out => shape (maskRGB out) = [1%nat]
  | Raise _ => False
  end.
Proof.
  destruct (composite red_lime demo_generator demo_to_rgb None demo_self
              (mask_1x1 3 [("BAD", 0%nat); ("SAT", 1%nat)])) as [out|e] eqn:E.
  - exact (composite_shape red_lime demo_generator demo_to_rgb None demo_self
             _ out E).
  - vm_compute in E. discriminate.
Defined.

Lemma output_bytes_witness :
  match composite red_lime demo_generator demo_to_rgb None demo_self
          (mask_1x1 3 [("BAD", 0%nat); ("SAT", 1%nat)]) with
  | Ok out =>
      match gget (maskRGB out) 0 0 with
      | Some px => 0 <= pR px < 256 /\ 0 <= pA px < 256
      | None => False
      end
  | Raise _ => False
  end.
Proof.
  destruct (composite red_lime demo_generator demo_to_rgb None demo_self
              (mask_1x1 3 [("BAD", 0%nat); ("SAT", 1%nat)])) as [out|e] eqn:E.
  - destruct (gget (maskRGB out) 0 0) as [px|] eqn:P.
    + destruct (output_bytes red_lime demo_generator demo_to_rgb None
                  demo_self _ out 0%nat 0%nat px E P) as [HR [_ [_ HA]]].
      split; assumption.
    + vm_compute in E. inversion E; subst out. vm_compute in P. discriminate.
  - vm_compute in E. discriminate.
Defined.

Lemma last_plane_wins_witness :
  match composite red_lime demo_generator demo_to_rgb None demo_self
          (mask_1x1 3 [("BAD", 0%nat); ("SAT", 1%nat)]) with
  | Ok out => gget (maskRGB out) 0 0 = Some (mkPixel 0 127 0 50)
  | Raise _ => False
  end.
Proof.
  destruct (composite red_lime demo_generator demo_to_rgb None demo_self
              (mask_1x1 3 [("BAD", 0%nat); ("SAT", 1%nat)])) as [out|e] eqn:E.
  - destruct (last_plane_wins red_lime demo_generator demo_to_rgb None
                demo_self (mask_1x1 3 [("BAD", 0%nat); ("SAT", 1%nat)]) out
                [("BAD", 0%nat)] [] ("SAT", 1%nat) (0, 1, 0)%float
                0%nat 0%nat 3)
      as [px [Hpx Hval]];
      try reflexivity; try exact E.
    + simpl. lia.
    + rewrite Hpx. f_equal. vm_compute in Hval. destruct Hval as [_ ->].
      reflexivity.
  - vm_compute in E. discriminate.
Defined.

Lemma single_contributor_pixel_witness :
  match composite red_lime demo_generator demo_to_rgb None demo_self
          (mask_1x1 2 [("BAD", 0%nat); ("SAT", 1%nat)]) with
  | Ok out => gget (maskRGB out) 0 0 = Some (mkPixel 0 255 0 50)
  | Raise _ => False
  end.
Proof.
  destruct (composite red_lime demo_generator demo_to_rgb None demo_self
              (mask_1x1 2 [("BAD", 0%nat); ("SAT", 1%nat)])) as [out|e] eqn:E.
  - rewrite (single_contributor_pixel red_lime demo_generator demo_to_rgb None
               demo_self (mask_1x1 2 [("BAD", 0%nat); ("SAT", 1%nat)]) out
               [("BAD", 0%nat)] [] ("SAT", 1%nat) (0, 1, 0)%float
               0%nat 0%nat 2 eq_refl E eq_refl eq_refl eq_refl eq_refl eq_refl).
    vm_compute. reflexivity.
  - vm_compute in E. discriminate.
Defined.


Lemma invalid_color_raises_witness :
  exists msg,
    composite unknown_color demo_generator demo_to_rgb None
      (canvas_add (Circle 1 2 3 "red") demo_self)
      (mask_1x1 1 [("BAD", 0%nat)]) = Raise (ValueError msg) /\
    snd (_mtv unknown_color demo_generator demo_to_rgb None
           (canvas_add (Circle 1 2 3 "red") demo_self) None
           (Some (mask_1x1 1 [("BAD", 0%nat)])) None) =
      Some (ValueError msg) /\
    _canvas
      (fst (_mtv unknown_color demo_generator demo_to_rgb None
              (canvas_add (Circle 1 2 3 "red") demo_self) None
              (Some (mask_1x1 1 [("BAD", 0%nat)])) None)) = [].
Proof.
  exact (invalid_color_raises unknown_color demo_generator demo_to_rgb None
           (canvas_add (Circle 1 2 3 "red") demo_self)
           (mask_1x1 1 [("BAD", 0%nat)]) [] [] ("BAD", 0%nat)
           (init_locals (mask_1x1 1 [("BAD", 0%nat)])) None None
           eq_refl eq_refl eq_refl eq_refl eq_refl).
Defined.

Lemma mtv_replaces_canvas_witness :
  match composite red_lime demo_generator demo_to_rgb None
          (canvas_add (Circle 1 2 3 "red") demo_self)
          (mask_1x1 1 [("BAD", 0%nat)]) with
  | Ok out =>
      _canvas
        (fst (_mtv red_lime demo_generator demo_to_rgb None
                (canvas_add (Circle 1 2 3 "red") demo_self) None
                (Some (mask_1x1 1 [("BAD", 0%nat)])) None)) =
      [Image 0 0 (maskRGB out)]
  | Raise _ => False
  end.
Proof.
  destruct (composite red_lime demo_generator demo_to_rgb None
              (canvas_add (Circle 1 2 3 "red") demo_self)
              (mask_1x1 1 [("BAD", 0%nat)])) as [out|e] eqn:E.
  - exact (proj1 (proj2 (mtv_replaces_canvas red_lime demo_generator
                           demo_to_rgb None
                           (canvas_add (Circle 1 2 3 "red") demo_self)
                           (mask_1x1 1 [("BAD", 0%nat)]) out None None E))).
  - vm_compute in E. discriminate.
Defined.

Lemma set_transparency_then_composite_witness :
  match composite red_lime demo_generator demo_to_rgb None
          (fst (_setMaskTransparency demo_self 100 None))
          (mask_1x1 1 [("BAD", 0%nat)]) with
  | Ok out => exists px, gget (maskRGB out) 0 0 = Some px /\ pA px = 0
  | Raise _ => False
  end.
Proof.
  destruct (composite red_lime demo_generator demo_to_rgb None
              (fst (_setMaskTransparency demo_self 100 None))
              (mask_1x1 1 [("BAD", 0%nat)])) as [out|e] eqn:E.
  - destruct (set_transparency_then_composite red_lime demo_generator
                demo_to_rgb None demo_self 100%float
                (mask_1x1 1 [("BAD", 0%nat)]) out 0%nat 0%nat 1 eq_refl)
      as [px [Hpx Ha]]; try reflexivity; try exact E.
    + simpl. lia.
    + exists px. split; [exact Hpx|]. rewrite Ha. vm_compute. reflexivity.
  - vm_compute in E. discriminate.
Defined.

Lemma comment_ignored_witness :
  command_words "line 9 20 13 20 # color=red" =
    ["line"; "9"; "20"; "13"; "20"].
Proof.
  exact (eq_trans
           (proj1 (comment_ignored demo_float "line 9 20 13 20 " " color=red"
                     eq_refl))
           eq_refl).
Defined.

Lemma comment_only_command_witness :
  dot_command demo_float demo_self "+" "red" "  # a note" =
    (demo_self, Some (IndexError "list index out of range")).
Proof.
  exact (comment_only_command demo_float demo_self "+" "red" "  " " a note"
           eq_refl eq_refl).
Defined.

Lemma line_command_errors_witness :
  (exists msg,
     dot_command demo_float demo_self "+" "red" "line 9 20 x 20" =
       (demo_self, Some (ValueError msg))) /\
  (exists msg,
     dot_command demo_float demo_self "+" "red" "line 9 20 13" =
       (demo_self, Some (TypeError msg))).
Proof.
  split.
  - apply (proj1 (line_command_errors demo_float demo_self "+" "red"
                    "line 9 20 x 20" ["9"; "20"; "x"; "20"] eq_refl)).
    right. right. left. reflexivity.
  - apply (proj2 (line_command_errors demo_float demo_self "+" "red"
                    "line 9 20 13" ["9"; "20"; "13"] eq_refl)).
    + repeat constructor; discriminate.
    + simpl. lia.
Defined.

Lemma dot_appends_witness :
  exists objs,
    fst (_dot demo_regions demo_float demo_self (SymbStr "+") 10 20 2 "red") =
      set_canvas (_canvas demo_self ++ objs) demo_self /\
    List.length objs = 2%nat.
Proof.
  destruct (dot_appends demo_regions demo_float demo_self (SymbStr "+")
              10%float 20%float 2%float "red") as [objs [Hfst [_ Hlen]]].
  exists objs. split; [exact Hfst|]. apply Hlen. reflexivity.
Defined.

Lemma bit_set_testbit_witness :
  bit_set 5 2 = Z.testbit 5 2 /\ bit_set 5 1 = Z.testbit 5 1.
Proof.
  split.
  - apply (bit_set_testbit 32 5 2); [split; [lia | reflexivity] | simpl; lia].
  - apply (bit_set_testbit 32 5 1); [split; [lia | reflexivity] | simpl; lia].
Defined.
